(** * Yearly statistics and region extraction of [data/statistics.py] and
      [data/statistics_only_weibo.py]

    A shallow embedding of the aggregation core of the two scripts:
    - [process_data] (video export, one JSON array),
    - [process_weibo_jsonl] in its two variants (microblog export, JSON
      lines),
    - [save_to_csv] / [save_weibo_csv] (the rows handed to [csv.writer]),
    - the counting loop of [extract_ip_locations_and_plot_map] together
      with the tables [CHINA_PROVINCES] and [CHINA_PROVINCES_MAP].

    Python values are modelled after [json.loads]: a decoded value is a
    [json]; Python [int] is [Z]; a [str] is a list of Unicode code points;
    a [dict] used as an accumulator is a [gmap].  Exceptions are explicit:
    a computation returns [Ok] or [Raise], and the loop bodies thread the
    accumulator so that an update made before an exception stays made, as
    with Python's in-place mutation. *)

From Stdlib Require Import ZArith NArith Lia String Ascii.
From Stdlib Require Import Floats.SpecFloat.
From stdpp Require Import gmap list sorting.

Local Open Scope Z_scope.
#[local] Set Warnings "-register-all".

(** ** Python strings *)

Module Py.

(** A [str] is a sequence of code points. *)
Definition char := N.
Definition str := list char.

(** Source literals are written as UTF-8 string literals and decoded. *)
Fixpoint utf8_decode (bs : list N) : str :=
  match bs with
  | [] => []
  | b0 :: r0 =>
    if (b0 <? 0x80)%N then b0 :: utf8_decode r0 else
    match r0 with
    | [] => [b0]
    | b1 :: r1 =>
      if (b0 <? 0xE0)%N
      then ((b0 - 0xC0) * 64 + (b1 - 0x80))%N :: utf8_decode r1 else
      match r1 with
      | [] => [b0; b1]
      | b2 :: r2 =>
        if (b0 <? 0xF0)%N
        then ((b0 - 0xE0) * 4096 + (b1 - 0x80) * 64 + (b2 - 0x80))%N
             :: utf8_decode r2 else
        match r2 with
        | [] => [b0; b1; b2]
        | b3 :: r3 =>
          ((b0 - 0xF0) * 262144 + (b1 - 0x80) * 4096
           + (b2 - 0x80) * 64 + (b3 - 0x80))%N :: utf8_decode r3
        end
      end
    end
  end.

Definition utf8 (s : string) : str :=
  utf8_decode (map N_of_ascii (list_ascii_of_string s)).

(** [str.isspace] of one character, which is also the class [\s] of [re]
    on [str] patterns: the characters of bidirectional type WS, B or S
    and of category Zs. *)
Definition isspace (c : char) : bool :=
  ((0x09 <=? c) && (c <=? 0x0D) || (0x1C <=? c) && (c <=? 0x20)
   || (c =? 0x85) || (c =? 0xA0) || (c =? 0x1680)
   || (0x2000 <=? c) && (c <=? 0x200A)
   || (c =? 0x2028) || (c =? 0x2029) || (c =? 0x202F) || (c =? 0x205F)
   || (c =? 0x3000))%N.

(** ASCII digits, the explicit classes such as [[0-9]] of a pattern. *)
Definition ascii_range (lo hi : N) (c : char) : bool :=
  ((lo <=? c) && (c <=? hi))%N.

Definition ascii_decimal (c : char) : option Z :=
  if ascii_range 48 57 c then Some (Z.of_N c - 48) else None.

(** [s.replace(old, '')] for a one-character [old]. *)
Definition remove_char (old : char) (s : str) : str :=
  filter (λ c, c ≠ old) s.

Fixpoint drop_while (p : char → bool) (s : str) : str :=
  match s with
  | c :: s' => if p c then drop_while p s' else s
  | [] => []
  end.

Fixpoint take_while (p : char → bool) (s : str) : str :=
  match s with
  | c :: s' => if p c then c :: take_while p s' else []
  | [] => []
  end.

Fixpoint starts_with (p s : str) : bool :=
  match p, s with
  | [], _ => true
  | a :: p', b :: s' => (a =? b)%N && starts_with p' s'
  | _ :: _, [] => false
  end.

(** ** The runtime the scripts run on

    What the interpreter takes from its platform: the C library's local
    time zone, the conversion of a binary64 time stamp to whole seconds,
    and the Unicode character database.  Of the database it is only
    required that it agrees with ASCII on ASCII, classes every decimal
    digit as a digit and no white space as a digit. *)
Class Runtime := {
  (** calendar year of an epoch second in the process's local zone *)
  localtime_year : Z → Z;
  (** whole seconds of a finite float time stamp, after the rounding to
      microseconds that [datetime.fromtimestamp] applies *)
  float_seconds : spec_float → Z;
  (** decimal digit value of a character (category Nd) *)
  unicode_decimal : char → option Z;
  (** [str.isdigit] of one character *)
  unicode_isdigit : char → bool;
  decimal_isdigit :
    ∀ c, is_Some (unicode_decimal c) → unicode_isdigit c = true;
  decimal_ascii :
    ∀ c, (c < 128)%N → unicode_decimal c = ascii_decimal c;
  isdigit_ascii :
    ∀ c, (c < 128)%N → unicode_isdigit c = ascii_range 48 57 c;
  isdigit_not_space :
    ∀ c, isspace c = true → unicode_isdigit c = false;
}.

(** ** Exceptions *)

Inductive exn :=
  | JSONDecodeError
  | ValueError
  | TypeError
  | KeyError
  | AttributeError
  | OverflowError.

(** [except json.JSONDecodeError]: the class itself has no subclass among
    the exceptions raised here; it is a subclass of [ValueError], not the
    other way round. *)
Definition is_JSONDecodeError (e : exn) : bool :=
  match e with JSONDecodeError => true | _ => false end.

(** [except Exception]: every exception of [exn] is an [Exception]. *)
Definition is_Exception (e : exn) : bool := true.

Inductive result (A : Type) :=
  | Ok (a : A)
  | Raise (e : exn).
Arguments Ok {A} a.
Arguments Raise {A} e.

Definition is_Ok {A} (r : result A) : bool :=
  match r with Ok _ => true | Raise _ => false end.

Definition rbind {A B} (r : result A) (k : A → result B) : result B :=
  match r with Ok a => k a | Raise e => Raise e end.

(** ** Decoded JSON values

    What [json.load] and [json.loads] return.  A [dict] is given by its
    items, a key being looked up at its leftmost item. *)

Inductive json :=
  | JNull
  | JBool (b : bool)
  | JInt (z : Z)
  | JFloat (f : spec_float)
  | JStr (s : str)
  | JList (l : list json)
  | JDict (d : list (str * json)).

(** One line of a JSON-lines file after [json.loads(line.strip())]: the
    decoder either raises [JSONDecodeError] or yields a value. *)
Inductive line :=
  | Malformed
  | Decoded (v : json).

Definition json_loads (l : line) : result json :=
  match l with Malformed => Raise JSONDecodeError | Decoded v => Ok v end.

Fixpoint assoc (k : str) (d : list (str * json)) : option json :=
  match d with
  | [] => None
  | (k', v) :: d' => if decide (k = k') then Some v else assoc k d'
  end.

(** [obj[key]] with a [str] key: only a [dict] can be indexed by a string. *)
Definition getitem (obj : json) (key : str) : result json :=
  match obj with
  | JDict d => match assoc key d with Some v => Ok v | None => Raise KeyError end
  | _ => Raise TypeError
  end.

(** [obj.get(key, default)]: only a [dict] has the method. *)
Definition get (obj : json) (key : str) (dflt : json) : result json :=
  match obj with
  | JDict d => Ok (default dflt (assoc key d))
  | _ => Raise AttributeError
  end.

(** Truth value, as tested by [not x]. *)
Definition truthy (v : json) : bool :=
  match v with
  | JNull => false
  | JBool b => b
  | JInt z => negb (z =? 0)
  | JFloat (S754_zero _) => false
  | JFloat _ => true
  | JStr s => negb (bool_decide (s = []))
  | JList l => match l with [] => false | _ => true end
  | JDict d => match d with [] => false | _ => true end
  end.


(** ** [int(x)] *)

Section builtins.
Context `{Runtime}.

(** The digits of a decimal literal: decimal digits, single underscores
    only between two digits. *)
Fixpoint int_digits (acc : Z) (after_digit : bool) (s : str) : option Z :=
  match s with
  | [] => if after_digit then Some acc else None
  | c :: s' =>
    if (c =? 95)%N
    then (if after_digit then int_digits acc false s' else None)
    else match unicode_decimal c with
         | Some d => int_digits (10 * acc + d) true s'
         | None => None
         end
  end.

(** White space that [int] skips around a literal: of the ASCII
    characters only tab to carriage return and the space. *)
Definition int_space (c : char) : bool :=
  isspace c && negb (ascii_range 0x1C 0x1F c).

Definition int_of_str (s : str) : result Z :=
  let body := reverse (drop_while int_space (reverse (drop_while int_space s))) in
  let signed :=
    match body with
    | c :: r =>
      if (c =? 45)%N then Z.opp <$> int_digits 0 false r
      else if (c =? 43)%N then int_digits 0 false r
      else int_digits 0 false body
    | [] => None
    end in
  match signed with Some z => Ok z | None => Raise ValueError end.

(** [int(f)] of a float truncates towards zero. *)
Definition float_trunc (f : spec_float) : result Z :=
  match f with
  | S754_zero _ => Ok 0
  | S754_infinity _ => Raise OverflowError
  | S754_nan => Raise ValueError
  | S754_finite s m e =>
    let a := Z.shiftl (Z.pos m) e in Ok (if s then - a else a)
  end.

Definition int (v : json) : result Z :=
  match v with
  | JInt z => Ok z
  | JBool b => Ok (Z.b2z b)
  | JFloat f => float_trunc f
  | JStr s => int_of_str s
  | JNull | JList _ | JDict _ => Raise TypeError
  end.

(** [s.isdigit()] *)
Definition isdigit (s : str) : bool :=
  negb (bool_decide (s = [])) && forallb unicode_isdigit s.

(** ** [datetime.fromtimestamp(x).year]

    An [int] (or [bool]) or a float is accepted; the year of the local
    time must lie in [MINYEAR], [MAXYEAR].  Which of [ValueError],
    [OverflowError] and [OSError] reports a time stamp out of range
    depends on its size and on the platform; here it is [ValueError]. *)
Definition timestamp_seconds (v : json) : result Z :=
  match v with
  | JInt z => Ok z
  | JBool b => Ok (Z.b2z b)
  | JFloat S754_nan => Raise ValueError
  | JFloat (S754_infinity _) => Raise OverflowError
  | JFloat f => Ok (float_seconds f)
  | JNull | JStr _ | JList _ | JDict _ => Raise TypeError
  end.

Definition fromtimestamp_year (v : json) : result Z :=
  rbind (timestamp_seconds v) (λ secs,
    let y := localtime_year secs in
    if (1 <=? y) && (y <=? 9999) then Ok y else Raise ValueError).

End builtins.

(** ** [datetime.strptime(s, "%Y-%m-%d %H:%M:%S").year]

    [_strptime] turns the format into the regular expression
<<
    (?P<Y>\d\d\d\d)-(?P<m>1[0-2]|0[1-9]|[1-9])-
    (?P<d>3[0-1]|[1-2]\d|0[1-9]|[1-9]| [1-9])\s+
    (?P<H>2[0-3]|[0-1]\d|\d):(?P<M>[0-5]\d|\d):(?P<S>6[0-1]|[0-5]\d|\d)
>>
    matches it at the start of the string, requires the match to reach
    the end, converts the groups with [int] and builds the date, which
    checks the year, the day of the month and the second.  The matcher
    below is in continuation style: an alternation tries its branches in
    order and moves on when the rest of the pattern fails. *)

Section strptime.
Context `{Runtime}.

Definition matcher (R : Type) := (Z → str → option R) → str → option R.

(** [\d] *)
Definition re_digit {R} : matcher R := λ k s,
  match s with
  | c :: r => match unicode_decimal c with Some d => k d r | None => None end
  | [] => None
  end.

(** [[lo-hi]] for ASCII digits [lo], [hi] *)
Definition re_class {R} (lo hi : N) : matcher R := λ k s,
  match s with
  | c :: r => if ascii_range lo hi c then k (Z.of_N c - 48) r else None
  | [] => None
  end.

(** two digit positions in a row, read as a two-digit number *)
Definition re_two {R} (p q : matcher R) : matcher R := λ k,
  p (λ a, q (λ b, k (10 * a + b))).

Fixpoint re_alt {R} (ps : list (matcher R)) : matcher R := λ k s,
  match ps with
  | [] => None
  | p :: ps' =>
    match p k s with Some x => Some x | None => re_alt ps' k s end
  end.

Definition re_lit {R} (ch : N) (k : str → option R) (s : str) : option R :=
  match s with
  | c :: r => if (c =? ch)%N then k r else None
  | [] => None
  end.

(** [\s+], greedy *)
Fixpoint re_spaces {R} (k : str → option R) (s : str) : option R :=
  match s with
  | c :: r =>
    if isspace c
    then match re_spaces k r with Some x => Some x | None => k r end
    else None
  | [] => None
  end.

Definition re_Y {R} : matcher R := λ k,
  re_digit (λ a, re_digit (λ b, re_digit (λ c, re_digit (λ d,
    k (1000 * a + 100 * b + 10 * c + d))))).
Definition re_m {R} : matcher R :=
  re_alt [re_two (re_class 49 49) (re_class 48 50);
          re_two (re_class 48 48) (re_class 49 57);
          re_class 49 57].
Definition re_d {R} : matcher R :=
  re_alt [re_two (re_class 51 51) (re_class 48 49);
          re_two (re_class 49 50) re_digit;
          re_two (re_class 48 48) (re_class 49 57);
          re_class 49 57;
          (λ k, re_lit 32 (re_class 49 57 k))].
Definition re_H {R} : matcher R :=
  re_alt [re_two (re_class 50 50) (re_class 48 51);
          re_two (re_class 48 49) re_digit;
          re_digit].
Definition re_M {R} : matcher R :=
  re_alt [re_two (re_class 48 53) re_digit; re_digit].
Definition re_S {R} : matcher R :=
  re_alt [re_two (re_class 54 54) (re_class 48 49);
          re_two (re_class 48 53) re_digit;
          re_digit].

(** The six groups and the unmatched rest of the string. *)
Definition strptime_match (s : str) : option (Z * Z * Z * Z * Z * Z * str) :=
  re_Y (λ Y, re_lit 45 (re_m (λ m, re_lit 45 (re_d (λ d,
  re_spaces (re_H (λ h, re_lit 58 (re_M (λ mi, re_lit 58 (re_S (λ sec rest,
    Some (Y, m, d, h, mi, sec, rest)))))))))))) s.

Definition is_leap (y : Z) : bool :=
  (y mod 4 =? 0) && (negb (y mod 100 =? 0) || (y mod 400 =? 0)).

Definition days_in_month (y m : Z) : Z :=
  if m =? 2 then (if is_leap y then 29 else 28)
  else if (m =? 4) || (m =? 6) || (m =? 9) || (m =? 11) then 30
  else 31.

Definition strptime_year (v : json) : result Z :=
  match v with
  | JStr s =>
    match strptime_match s with
    | Some (Y, m, d, _, _, sec, rest) =>
      if bool_decide (rest = []) && (1 <=? Y) && (d <=? days_in_month Y m)
         && (sec <=? 59)
      then Ok Y else Raise ValueError
    | None => Raise ValueError
    end
  | _ => Raise TypeError
  end.

End strptime.

(** ** Loops over a mutable accumulator

    A statement is a function from the accumulator to an outcome and the
    accumulator it leaves behind. *)

Section stmt.
Context {S : Type}.

Definition stmt (A : Type) := S → result A * S.

Definition ret {A} (a : A) : stmt A := λ s, (Ok a, s).
Definition lift {A} (r : result A) : stmt A := λ s, (r, s).
Definition modify (f : S → S) : stmt unit := λ s, (Ok tt, f s).
Definition bind {A B} (m : stmt A) (k : A → stmt B) : stmt B := λ s,
  match m s with
  | (Ok a, s') => k a s'
  | (Raise e, s') => (Raise e, s')
  end.

(** [for x in xs: body] *)
Fixpoint for_each {X} (body : X → stmt unit) (xs : list X) : stmt unit :=
  match xs with
  | [] => ret tt
  | x :: xs' => bind (body x) (λ _, for_each body xs')
  end.

(** [try: body / except cls: continue] as the whole body of a loop *)
Definition try_continue (cls : exn → bool) (body : stmt unit) : stmt unit :=
  λ s,
  match body s with
  | (Raise e, s') => if cls e then (Ok tt, s') else (Raise e, s')
  | r => r
  end.

(** Run a function body on a fresh accumulator and [return] it. *)
Definition returning (init : S) (m : stmt unit) : result S :=
  match m init with
  | (Ok _, s) => Ok s
  | (Raise e, _) => Raise e
  end.

End stmt.

Notation "x <- m ;; k" := (bind m (λ x, k))
  (at level 100, m at next level, right associativity).
Notation "m ;;; k" := (bind m (λ _, k))
  (at level 100, right associativity).

End Py.

(** ** [re.search] of the location pattern *)

Module Re.
Import Py.

(** [\s*], greedy *)
Fixpoint spaces_star {R} (k : str → option R) (s : str) : option R :=
  match s with
  | c :: r =>
    if isspace c
    then match spaces_star k r with Some x => Some x | None => k s end
    else k s
  | [] => k []
  end.

(** [(\S+)] closing a pattern: the longest run of non-space characters,
    which must not be empty; the run is the group. *)
Definition nonspaces_group (s : str) : option str :=
  match take_while (λ c, negb (isspace c)) s with
  | [] => None
  | tok => Some tok
  end.

(** a literal text *)
Fixpoint literal {R} (text : str) (k : str → option R) (s : str) : option R :=
  match text with
  | [] => k s
  | ch :: text' => re_lit ch (literal text' k) s
  end.

(** [re.search]: the match at the leftmost position where the pattern
    matches. *)
Fixpoint search {R} (pattern : str → option R) (s : str) : option R :=
  match pattern s with
  | Some x => Some x
  | None => match s with [] => None | _ :: s' => search pattern s' end
  end.

End Re.

(** * [data/statistics.py] *)

Module Statistics.
Import Py.

Section with_runtime.
Context `{Runtime}.

(** The value of [yearly_stats[year]]: a dict with five fixed keys. *)
Record video_entry := {
  post_count : Z;
  total_likes : Z;
  total_collections : Z;
  total_comments : Z;
  total_shares : Z;
}.

Definition zero_entry : video_entry :=
  {| post_count := 0; total_likes := 0; total_collections := 0;
     total_comments := 0; total_shares := 0 |}.

Definition add_post (n : Z) (e : video_entry) : video_entry :=
  {| post_count := post_count e + n; total_likes := total_likes e;
     total_collections := total_collections e;
     total_comments := total_comments e; total_shares := total_shares e |}.
Definition add_likes (n : Z) (e : video_entry) : video_entry :=
  {| post_count := post_count e; total_likes := total_likes e + n;
     total_collections := total_collections e;
     total_comments := total_comments e; total_shares := total_shares e |}.
Definition add_collections (n : Z) (e : video_entry) : video_entry :=
  {| post_count := post_count e; total_likes := total_likes e;
     total_collections := total_collections e + n;
     total_comments := total_comments e; total_shares := total_shares e |}.
Definition add_comments (n : Z) (e : video_entry) : video_entry :=
  {| post_count := post_count e; total_likes := total_likes e;
     total_collections := total_collections e;
     total_comments := total_comments e + n; total_shares := total_shares e |}.
Definition add_shares (n : Z) (e : video_entry) : video_entry :=
  {| post_count := post_count e; total_likes := total_likes e;
     total_collections := total_collections e;
     total_comments := total_comments e; total_shares := total_shares e + n |}.

(** [if year not in d: d[year] = v] *)
Definition setdefault {V} (year : Z) (v : V) (d : gmap Z V) : gmap Z V :=
  match d !! year with
  | None => <[year := v]> d
  | Some _ => d
  end.

(** The body of the loop of [process_data]. *)
Definition process_item (item : json) : stmt (S := gmap Z video_entry) unit :=
  create_time <- lift (getitem item (utf8 "create_time")) ;;
  year <- lift (fromtimestamp_year create_time) ;;
  modify (setdefault year zero_entry) ;;;
  modify (alter (add_post 1) year) ;;;
  liked <- lift (rbind (get item (utf8 "liked_count") (JInt 0)) int) ;;
  modify (alter (add_likes liked) year) ;;;
  collected <- lift (rbind (get item (utf8 "collected_count") (JInt 0)) int) ;;
  modify (alter (add_collections collected) year) ;;;
  comment <- lift (rbind (get item (utf8 "comment_count") (JInt 0)) int) ;;
  modify (alter (add_comments comment) year) ;;;
  share <- lift (rbind (get item (utf8 "share_count") (JInt 0)) int) ;;
  modify (alter (add_shares share) year).

Definition process_data (data : list json) : result (gmap Z video_entry) :=
  returning ∅ (for_each process_item data).

(** The body of the [try] of [process_weibo_jsonl]; the [continue] of
    the empty date ends the iteration. *)
Definition weibo_line (l : line) : stmt (S := gmap Z Z) unit :=
  record <- lift (json_loads l) ;;
  date_str <- lift (get record (utf8 "created_at") (JStr [])) ;;
  if negb (truthy date_str) then ret tt else
  year <- lift (strptime_year date_str) ;;
  modify (setdefault year 0) ;;;
  modify (alter (λ n, n + 1) year).

Definition process_weibo_jsonl (lines : list line) : result (gmap Z Z) :=
  returning ∅
    (for_each (λ l, try_continue is_JSONDecodeError (weibo_line l)) lines).

End with_runtime.

(** Rows as handed to [csv.writer.writerow]. *)
Inductive cell :=
  | CStr (s : str)
  | CInt (z : Z).

(** [sorted(stats.keys())] *)
Definition sorted_keys {V} (stats : gmap Z V) : list Z :=
  merge_sort Z.le (elements (dom stats)).

Definition csv_header : list cell :=
  [CStr (utf8 "Year"); CStr (utf8 "Post Count"); CStr (utf8 "Total Likes");
   CStr (utf8 "Total Collections"); CStr (utf8 "Total Comments");
   CStr (utf8 "Total Shares")].

Definition csv_row (year : Z) (data : video_entry) : list cell :=
  [CInt year; CInt (post_count data); CInt (total_likes data);
   CInt (total_collections data); CInt (total_comments data);
   CInt (total_shares data)].

(** The rows [save_to_csv] writes, in order. *)
Definition save_to_csv (stats : gmap Z video_entry) : list (list cell) :=
  csv_header
  :: omap (λ year, csv_row year <$> stats !! year) (sorted_keys stats).

Definition save_weibo_csv (stats : gmap Z Z) : list (list cell) :=
  [CStr (utf8 "Year"); CStr (utf8 "Post Count")]
  :: omap (λ year, (λ n, [CInt year; CInt n]) <$> stats !! year)
          (sorted_keys stats).

Definition CHINA_PROVINCES : gset str :=
  list_to_set (utf8 <$> [
    "北京"; "天津"; "上海"; "重庆";
    "河北"; "山西"; "辽宁"; "吉林"; "黑龙江";
    "江苏"; "浙江"; "安徽"; "福建"; "江西"; "山东";
    "河南"; "湖北"; "湖南"; "广东"; "海南";
    "四川"; "贵州"; "云南"; "陕西"; "甘肃"; "青海";
    "内蒙古"; "广西"; "西藏"; "宁夏"; "新疆";
    "中国香港"; "中国澳门"; "中国台湾"
  ]%string).

(** The items of the dict literal, in source order. *)
Definition CHINA_PROVINCES_MAP_items : list (str * str) :=
  prod_map utf8 utf8 <$> [
    ("北京", "北京市");
    ("天津", "天津市");
    ("上海", "上海市");
    ("重庆", "重庆市");
    ("河北", "河北省");
    ("山西", "山西省");
    ("辽宁", "辽宁省");
    ("吉林", "吉林省");
    ("黑龙江", "黑龙江省");
    ("江苏", "江苏省");
    ("浙江", "浙江省");
    ("安徽", "安徽省");
    ("福建", "福建省");
    ("江西", "江西省");
    ("山东", "山东省");
    ("河南", "河南");
    ("湖北", "湖北省");
    ("湖南", "湖南省");
    ("广东", "广东省");
    ("海南", "海南省");
    ("四川", "四川省");
    ("贵州", "贵州省");
    ("云南", "云南省");
    ("陕西", "陕西省");
    ("甘肃", "甘肃省");
    ("青海", "青海省");
    ("内蒙古", "内蒙古自治区");
    ("广西", "广西壮族自治区");
    ("西藏", "西藏自治区");
    ("宁夏", "宁夏回族自治区");
    ("新疆", "新疆维吾尔自治区");
    ("中国香港", "香港特别行政区");
    ("中国澳门", "澳门特别行政区");
    ("中国台湾", "台湾省")
  ]%string.

Definition CHINA_PROVINCES_MAP : gmap str str :=
  list_to_map CHINA_PROVINCES_MAP_items.

(** [re.search(r'发布于\s*(\S+)', ip_loc)] and its [group(1)] *)
Definition marker : str := utf8 "发布于".

Definition search_province (ip_loc : str) : option str :=
  Re.search (Re.literal marker (Re.spaces_star Re.nonspaces_group)) ip_loc.

(** [ip_counter[key] += 1] on a [Counter], where a missing key counts 0 *)
Definition counter_incr (key : str) (c : gmap str Z) : gmap str Z :=
  <[key := default 0 (c !! key) + 1]> c.

(** The body of the [try] in [extract_ip_locations_and_plot_map]. *)
Definition ip_line (l : line) : stmt (S := gmap str Z) unit :=
  record <- lift (json_loads l) ;;
  ip_loc <- lift (get record (utf8 "ip_location") (JStr [])) ;;
  match ip_loc with
  | JStr s =>
    match search_province s with
    | Some province =>
      if bool_decide (province ∈ CHINA_PROVINCES) then
        match CHINA_PROVINCES_MAP !! province with
        | Some name => modify (counter_incr name)
        | None => lift (Raise KeyError)
        end
      else ret tt
    | None => ret tt
    end
  | _ => ret tt
  end.

(** [ip_counter] when the loop of [extract_ip_locations_and_plot_map] is
    over. *)
Definition ip_counter (lines : list line) : result (gmap str Z) :=
  returning ∅
    (for_each (λ l, try_continue is_JSONDecodeError (ip_line l)) lines).

(** What the function hands to the map renderer: nothing when the
    counter is empty ([if not ip_counter: return]), else the counts. *)
Definition extract_ip_locations_and_plot_map (lines : list line)
  : result (option (gmap str Z)) :=
  rbind (ip_counter lines) (λ c,
    Ok (if bool_decide (c = ∅) then None else Some c)).

End Statistics.

(** * [data/statistics_only_weibo.py] *)

Module StatisticsOnlyWeibo.
Import Py.

(** The value of [yearly_stats[year]]: a dict with two fixed keys. *)
Record weibo_entry := {
  post_count : Z;
  reads_count : Z;
}.

Definition zero_entry : weibo_entry := {| post_count := 0; reads_count := 0 |}.

Definition add_post (n : Z) (e : weibo_entry) : weibo_entry :=
  {| post_count := post_count e + n; reads_count := reads_count e |}.
Definition add_reads (n : Z) (e : weibo_entry) : weibo_entry :=
  {| post_count := post_count e; reads_count := reads_count e + n |}.

Section with_runtime.
Context `{Runtime}.

(** The normalisation of [reads]: a [str] is parsed after its commas are
    removed when the rest [isdigit], else it is 0; of the other values an
    instance of [int], which a [bool] is, stays; everything else is 0. *)
Definition normalise_reads (reads : json) : result Z :=
  match reads with
  | JStr s =>
    if isdigit (remove_char 44%N s) then int_of_str (remove_char 44%N s) else Ok 0
  | JInt z => Ok z
  | JBool b => Ok (Z.b2z b)
  | JNull | JFloat _ | JList _ | JDict _ => Ok 0
  end.

(** The body of the [try] of [process_weibo_jsonl]. *)
Definition weibo_line (l : line) : stmt (S := gmap Z weibo_entry) unit :=
  record <- lift (json_loads l) ;;
  date_str <- lift (get record (utf8 "created_at") (JStr [])) ;;
  if negb (truthy date_str) then ret tt else
  year <- lift (strptime_year date_str) ;;
  modify (Statistics.setdefault year zero_entry) ;;;
  modify (alter (add_post 1) year) ;;;
  reads <- lift (get record (utf8 "reads_count") (JInt 3000)) ;;
  reads <- lift (normalise_reads reads) ;;
  modify (alter (add_reads reads) year).

Definition process_weibo_jsonl (lines : list line)
  : result (gmap Z weibo_entry) :=
  returning ∅
    (for_each (λ l, try_continue is_Exception (weibo_line l)) lines).

End with_runtime.

Definition save_weibo_csv (stats : gmap Z weibo_entry) : list (list Statistics.cell) :=
  [Statistics.CStr (utf8 "Year"); Statistics.CStr (utf8 "Post Count");
   Statistics.CStr (utf8 "Reads Count")]
  :: omap (λ year,
       (λ e, [Statistics.CInt year; Statistics.CInt (post_count e);
              Statistics.CInt (reads_count e)]) <$> stats !! year)
     (Statistics.sorted_keys stats).

(** The two region tables and the location loop have the same text in
    both files. *)
Definition CHINA_PROVINCES := Statistics.CHINA_PROVINCES.
Definition CHINA_PROVINCES_MAP := Statistics.CHINA_PROVINCES_MAP.
Definition ip_counter := Statistics.ip_counter.

End StatisticsOnlyWeibo.

(** * A concrete runtime

    The zone is UTC, float time stamps are rounded in exact arithmetic,
    and the character tables are those of Unicode on the code points
    below 256: the decimal digits are the ASCII digits, and the
    superscripts one, two and three are digits that are not decimal. *)

Module Utc.
Import Py.

(** The proleptic Gregorian year of a day counted from 1970-01-01. *)
Definition year_of_days (days : Z) : Z :=
  let z := days + 719468 in
  let era := z / 146097 in
  let doe := z - era * 146097 in
  let yoe := (doe - doe / 1460 + doe / 36524 - doe / 146096) / 365 in
  let doy := doe - (365 * yoe + yoe / 4 - yoe / 100) in
  let mp := (5 * doy + 2) / 153 in
  yoe + era * 400 + (if mp <? 10 then 0 else 1).

Definition localtime_year (secs : Z) : Z := year_of_days (secs / 86400).

(** [n / d] rounded to the nearest integer, ties to even *)
Definition round_half_even (n d : Z) : Z :=
  let q := n / d in
  let r := n mod d in
  if 2 * r <? d then q
  else if d <? 2 * r then q + 1
  else if Z.even q then q else q + 1.

Definition float_seconds (f : spec_float) : Z :=
  match f with
  | S754_finite s m e =>
    let n := if s then Z.neg m else Z.pos m in
    if 0 <=? e then n * 2 ^ e
    else round_half_even (n * 1000000) (2 ^ (- e)) / 1000000
  | _ => 0
  end.

Definition unicode_isdigit (c : char) : bool :=
  ascii_range 48 57 c || (c =? 0xB2)%N || (c =? 0xB3)%N || (c =? 0xB9)%N.

Lemma utc_decimal_isdigit c :
  is_Some (ascii_decimal c) → unicode_isdigit c = true.
Proof.
  unfold ascii_decimal, unicode_isdigit.
  destruct (ascii_range 48 57 c); [done | intros [? ?]; done].
Qed.

Lemma utc_isdigit_ascii c :
  (c < 128)%N → unicode_isdigit c = ascii_range 48 57 c.
Proof.
  intros Hc. unfold unicode_isdigit.
  replace (c =? 0xB2)%N with false by (symmetry; apply N.eqb_neq; lia).
  replace (c =? 0xB3)%N with false by (symmetry; apply N.eqb_neq; lia).
  replace (c =? 0xB9)%N with false by (symmetry; apply N.eqb_neq; lia).
  by rewrite !orb_false_r.
Qed.

Lemma utc_isdigit_not_space c :
  isspace c = true → unicode_isdigit c = false.
Proof.
  unfold isspace, unicode_isdigit, ascii_range.
  intros Hs. apply not_true_is_false. intros Hd.
  rewrite !orb_true_iff, !andb_true_iff, !N.leb_le, !N.eqb_eq in Hs.
  rewrite !orb_true_iff, !andb_true_iff, !N.leb_le, !N.eqb_eq in Hd.
  unfold char in *. lia.
Qed.

Definition runtime : Runtime := {|
  Py.localtime_year := localtime_year;
  Py.float_seconds := float_seconds;
  Py.unicode_decimal := ascii_decimal;
  Py.unicode_isdigit := unicode_isdigit;
  Py.decimal_isdigit := utc_decimal_isdigit;
  Py.decimal_ascii := λ c _, eq_refl;
  Py.isdigit_ascii := utc_isdigit_ascii;
  Py.isdigit_not_space := utc_isdigit_not_space;
|}.

(** A JSON object written with its keys as literals. *)
Definition obj (items : list (string * json)) : json :=
  JDict (prod_map utf8 id <$> items).

End Utc.

(** * Loops as folds

    A loop body that either raises or applies a function of the
    accumulator makes the loop a fold of these functions that stops at
    the first exception. *)

Import Py.

Section fold_effects.
Context {S X : Type}.

Fixpoint fold_effects (eff : X → result (S → S)) (xs : list X) (s : S)
  : result S :=
  match xs with
  | [] => Ok s
  | x :: xs' =>
    match eff x with
    | Ok f => fold_effects eff xs' (f s)
    | Raise e => Raise e
    end
  end.

(** [body] implements [eff]: it applies the function, or raises the
    exception (whatever it has done to the accumulator by then). *)
Definition implements (body : X → stmt (S := S) unit)
    (eff : X → result (S → S)) : Prop :=
  ∀ x s,
    match eff x with
    | Ok f => body x s = (Ok tt, f s)
    | Raise e => (body x s).1 = Raise e
    end.

Lemma returning_for_each body eff xs s :
  implements body eff →
  returning s (for_each body xs) = fold_effects eff xs s.
Proof.
  intros Himpl. revert s. induction xs as [|x xs IH]; intros s; [done|].
  specialize (Himpl x s). specialize (IH (match eff x with Ok f => f s | _ => s end)).
  unfold returning in *. simpl. unfold bind.
  destruct (eff x) as [f|e].
  - rewrite Himpl. exact IH.
  - destruct (body x s) as [[?|?] ?]; simpl in Himpl; congruence.
Qed.

Lemma fold_effects_app eff xs ys s :
  fold_effects eff (xs ++ ys) s =
  rbind (fold_effects eff xs s) (fold_effects eff ys).
Proof.
  revert s. induction xs as [|x xs IH]; intros s; simpl; [done|].
  destruct (eff x); [apply IH | done].
Qed.

Lemma fold_effects_raise eff pre x post s e :
  eff x = Raise e → is_Ok (fold_effects eff (pre ++ x :: post) s) = false.
Proof.
  intros Hx. rewrite fold_effects_app.
  destruct (fold_effects eff pre s); simpl; [by rewrite Hx | done].
Qed.

Lemma fold_effects_Ok_iff eff xs s :
  is_Ok (fold_effects eff xs s) = true ↔ Forall (λ x, is_Ok (eff x) = true) xs.
Proof.
  revert s. induction xs as [|x xs IH]; intros s; simpl.
  - split; [constructor | done].
  - rewrite Forall_cons. destruct (eff x) as [f|e]; simpl.
    + rewrite IH. tauto.
    + split; [done | intros [? _]; done].
Qed.

(** An invariant with a counter: every effect keeps [P] and moves the
    measure by its own weight. *)
Lemma fold_effects_measure (eff : X → result (S → S)) (μ : S → Z)
    (w : X → Z) (P : S → Prop) xs s s' :
  (∀ x f s, eff x = Ok f → P s → P (f s) ∧ μ (f s) = μ s + w x) →
  P s → fold_effects eff xs s = Ok s' →
  P s' ∧ μ s' = μ s + foldr (λ x n, w x + n) 0 xs.
Proof.
  intros Hstep. revert s. induction xs as [|x xs IH]; intros s Hs Hrun; simpl in *.
  - inversion Hrun; subst. split; [done | lia].
  - destruct (eff x) as [f|e] eqn:Hx; [|done].
    destruct (Hstep x f s Hx Hs) as [HP Hμ].
    destruct (IH (f s) HP Hrun) as [HP' Hμ']. split; [done | lia].
Qed.

(** The table a run returns, if it returns. *)
Definition table_of {A} (r : result A) : option A :=
  match r with Ok a => Some a | Raise _ => None end.

(** Effects that commute pairwise can be folded in any order. *)
Lemma fold_effects_Permutation eff xs ys s :
  (∀ x y f g s, eff x = Ok f → eff y = Ok g → f (g s) = g (f s)) →
  xs ≡ₚ ys →
  table_of (fold_effects eff xs s) = table_of (fold_effects eff ys s).
Proof.
  intros Hcomm Hperm. revert s.
  induction Hperm as [|x xs ys _ IH|x y xs|xs ys zs _ IH1 _ IH2]; intros s; simpl.
  - done.
  - destruct (eff x); [apply IH | done].
  - destruct (eff x) as [f|] eqn:Hx, (eff y) as [g|] eqn:Hy; try done.
    by rewrite (Hcomm x y f g s Hx Hy).
  - by rewrite IH1.
Qed.

End fold_effects.

(** * Tables of sums

    What one record does to a table: it adds its contribution to the
    entry of its key, an absent entry counting as zero. *)

Section bump.
Context `{Countable K} {V : Type} (plus : V → V → V) (zero : V).

Definition bump (k : K) (δ : V) (t : gmap K V) : gmap K V :=
  <[k := plus (default zero (t !! k)) δ]> t.

(** The sum of a measure of the entries over all keys. *)
Definition total (μ : V → Z) (t : gmap K V) : Z :=
  map_fold (λ _ v acc, μ v + acc) 0 t.

Lemma lookup_bump k δ t j :
  bump k δ t !! j =
  if decide (k = j) then Some (plus (default zero (t !! k)) δ) else t !! j.
Proof. unfold bump. by rewrite lookup_insert. Qed.

Lemma bump_comm k1 δ1 k2 δ2 t :
  (∀ a b c, plus (plus a b) c = plus (plus a c) b) →
  bump k1 δ1 (bump k2 δ2 t) = bump k2 δ2 (bump k1 δ1 t).
Proof.
  intros Hplus. apply map_eq. intros j. rewrite !lookup_bump.
  repeat case_decide; simplify_eq; simpl; try done.
  by rewrite Hplus.
Qed.

Lemma dom_bump k δ t : dom (bump k δ t) = {[k]} ∪ dom t.
Proof. unfold bump. by rewrite dom_insert_L. Qed.

Lemma total_empty μ : total μ ∅ = 0.
Proof. unfold total. by rewrite map_fold_empty. Qed.

Lemma total_insert_fresh μ k v t :
  t !! k = None → total μ (<[k := v]> t) = μ v + total μ t.
Proof.
  intros Hk. unfold total. rewrite map_fold_insert_L; [done| |done].
  intros. lia.
Qed.

Lemma total_delete μ k v t :
  t !! k = Some v → total μ t = μ v + total μ (delete k t).
Proof.
  intros Hk. unfold total.
  rewrite (map_fold_delete_L _ _ k v t); [done| |done].
  intros. lia.
Qed.

Lemma total_bump μ k δ t :
  μ zero = 0 → (∀ a b, μ (plus a b) = μ a + μ b) →
  total μ (bump k δ t) = total μ t + μ δ.
Proof.
  intros Hzero Hplus. unfold bump.
  destruct (t !! k) as [v|] eqn:Hk; simpl.
  - rewrite <- insert_delete_eq.
    rewrite total_insert_fresh by apply lookup_delete_eq.
    rewrite (total_delete μ k v t Hk), Hplus. lia.
  - rewrite total_insert_fresh by done. rewrite Hplus, Hzero. lia.
Qed.

(** [setdefault] followed by an update in place is a [bump]. *)
Lemma alter_insert_default (f : V → V) (k : K) (t : gmap K V) :
  alter f k (match t !! k with None => <[k := zero]> t | Some _ => t end)
  = <[k := f (default zero (t !! k))]> t.
Proof.
  destruct (t !! k) as [v|] eqn:Hk; simpl.
  - apply map_eq. intros j. destruct (decide (k = j)) as [<-|].
    + by rewrite lookup_alter_eq, lookup_insert_eq, Hk.
    + by rewrite lookup_alter_ne, lookup_insert_ne.
  - by rewrite alter_insert_eq.
Qed.

End bump.

(** * What one record contributes *)

Section contributions.
Context `{Runtime}.

(** ** Video records *)

Definition video_plus (a b : Statistics.video_entry) : Statistics.video_entry :=
  {| Statistics.post_count := Statistics.post_count a + Statistics.post_count b;
     Statistics.total_likes := Statistics.total_likes a + Statistics.total_likes b;
     Statistics.total_collections :=
       Statistics.total_collections a + Statistics.total_collections b;
     Statistics.total_comments :=
       Statistics.total_comments a + Statistics.total_comments b;
     Statistics.total_shares :=
       Statistics.total_shares a + Statistics.total_shares b |}.

(** The year of a video record: its [create_time] read as an epoch. *)
Definition video_year (item : json) : result Z :=
  rbind (getitem item (utf8 "create_time")) fromtimestamp_year.

(** An engagement field: 0 when absent, [int] of the value when present;
    on a record that is a [dict]. *)
Definition engagement (d : list (str * json)) (key : string) : result Z :=
  match assoc (utf8 key) d with
  | None => Ok 0
  | Some v => int v
  end.

Definition video_contribution (item : json)
  : result (Z * Statistics.video_entry) :=
  match item with
  | JDict d =>
    rbind (video_year item) (λ y,
    rbind (engagement d "liked_count") (λ l,
    rbind (engagement d "collected_count") (λ c,
    rbind (engagement d "comment_count") (λ m,
    rbind (engagement d "share_count") (λ s,
      Ok (y, {| Statistics.post_count := 1; Statistics.total_likes := l;
                Statistics.total_collections := c;
                Statistics.total_comments := m;
                Statistics.total_shares := s |}))))))
  | _ => Raise TypeError
  end.

Definition video_effect (item : json)
  : result (gmap Z Statistics.video_entry → gmap Z Statistics.video_entry) :=
  rbind (video_contribution item) (λ yδ,
    Ok (bump video_plus Statistics.zero_entry yδ.1 yδ.2)).

Lemma get_engagement d key :
  rbind (get (JDict d) (utf8 key) (JInt 0)) int = engagement d key.
Proof. unfold engagement. simpl. by destruct (assoc (utf8 key) d). Qed.

Lemma process_item_implements :
  implements Statistics.process_item video_effect.
Proof.
  intros item t. unfold video_effect, video_contribution, video_year.
  unfold Statistics.process_item, bind, lift, modify.
  destruct item as [| | | | |l|d]; try done.
  rewrite !get_engagement.
  destruct (getitem (JDict d) (utf8 "create_time")) as [ct|e];
    cbn [rbind]; [|done].
  destruct (fromtimestamp_year ct) as [y|e]; cbn [rbind]; [|done].
  destruct (engagement d "liked_count") as [l|e]; cbn [rbind]; [|done].
  destruct (engagement d "collected_count") as [c|e]; cbn [rbind]; [|done].
  destruct (engagement d "comment_count") as [m|e]; cbn [rbind]; [|done].
  destruct (engagement d "share_count") as [s|e]; cbn [rbind]; [|done].
  f_equal. unfold Statistics.setdefault.
  rewrite (alter_insert_default Statistics.zero_entry), !alter_insert_eq.
  reflexivity.
Qed.

Lemma process_data_fold data :
  Statistics.process_data data = fold_effects video_effect data ∅.
Proof. apply returning_for_each, process_item_implements. Qed.

Lemma video_plus_comm a b c :
  video_plus (video_plus a b) c = video_plus (video_plus a c) b.
Proof. unfold video_plus. simpl. f_equal; lia. Qed.

End contributions.

Section line_contributions.
Context `{Runtime}.

(** ** Microblog lines *)

(** The year a line produces: the line decodes to a record whose
    [created_at] is non-empty and parses. *)
Definition weibo_year (l : line) : option Z :=
  match l with
  | Decoded (JDict d) =>
    let date_str := default (JStr []) (assoc (utf8 "created_at") d) in
    if truthy date_str then table_of (strptime_year date_str) else None
  | _ => None
  end.

Definition weibo_plus (a b : StatisticsOnlyWeibo.weibo_entry)
  : StatisticsOnlyWeibo.weibo_entry :=
  {| StatisticsOnlyWeibo.post_count :=
       StatisticsOnlyWeibo.post_count a + StatisticsOnlyWeibo.post_count b;
     StatisticsOnlyWeibo.reads_count :=
       StatisticsOnlyWeibo.reads_count a + StatisticsOnlyWeibo.reads_count b |}.

(** The reads a record adds: an exception of the normalisation is
    caught after the post has been counted, and adds nothing. *)
Definition reads_added (d : list (str * json)) : Z :=
  match StatisticsOnlyWeibo.normalise_reads
          (default (JInt 3000) (assoc (utf8 "reads_count") d)) with
  | Ok r => r
  | Raise _ => 0
  end.

Definition weibo_contribution (l : line)
  : option (Z * StatisticsOnlyWeibo.weibo_entry) :=
  match l with
  | Decoded (JDict d) =>
    (λ y, (y, {| StatisticsOnlyWeibo.post_count := 1;
                 StatisticsOnlyWeibo.reads_count := reads_added d |}))
    <$> weibo_year l
  | _ => None
  end.

Definition weibo_effect (l : line)
  : result (gmap Z StatisticsOnlyWeibo.weibo_entry
            → gmap Z StatisticsOnlyWeibo.weibo_entry) :=
  Ok (match weibo_contribution l with
      | Some (y, δ) => bump weibo_plus StatisticsOnlyWeibo.zero_entry y δ
      | None => id
      end).

Lemma only_weibo_line_implements :
  implements
    (λ l, try_continue is_Exception (StatisticsOnlyWeibo.weibo_line l))
    weibo_effect.
Proof.
  intros l t. unfold weibo_effect, weibo_contribution, weibo_year, reads_added.
  unfold try_continue, StatisticsOnlyWeibo.weibo_line, bind, lift, modify.
  destruct l as [|v]; [done|].
  destruct v as [| | | | | |d]; try done.
  cbn [json_loads get].
  destruct (truthy (default (JStr []) (assoc (utf8 "created_at") d))); [|done].
  cbn [negb].
  destruct (strptime_year _) as [y|e]; [|done].
  cbn [table_of fmap option_fmap option_map].
  unfold Statistics.setdefault.
  rewrite (alter_insert_default StatisticsOnlyWeibo.zero_entry).
  destruct (StatisticsOnlyWeibo.normalise_reads _) as [r|e]; cbn [is_Exception].
  - rewrite alter_insert_eq. reflexivity.
  - f_equal. unfold bump. f_equal.
    destruct (default StatisticsOnlyWeibo.zero_entry (t !! y)).
    unfold weibo_plus, StatisticsOnlyWeibo.add_post. simpl. f_equal. lia.
Qed.

Lemma only_weibo_fold lines :
  StatisticsOnlyWeibo.process_weibo_jsonl lines
  = fold_effects weibo_effect lines ∅.
Proof. apply returning_for_each, only_weibo_line_implements. Qed.

Lemma weibo_plus_comm a b c :
  weibo_plus (weibo_plus a b) c = weibo_plus (weibo_plus a c) b.
Proof. unfold weibo_plus. simpl. f_equal; lia. Qed.

(** The basic variant of [statistics.py] counts posts only, and catches
    [JSONDecodeError] only. *)
Definition basic_effect (l : line) : result (gmap Z Z → gmap Z Z) :=
  match l with
  | Malformed => Ok id
  | Decoded (JDict d) =>
    let date_str := default (JStr []) (assoc (utf8 "created_at") d) in
    if truthy date_str
    then rbind (strptime_year date_str) (λ y, Ok (bump Z.add 0 y 1))
    else Ok id
  | Decoded _ => Raise AttributeError
  end.

Lemma strptime_year_raises v e :
  strptime_year v = Raise e → e = ValueError ∨ e = TypeError.
Proof.
  unfold strptime_year. destruct v; try (intros [= <-]; auto).
  destruct (strptime_match s) as [[[[[[[Y m] d] ?] ?] sec] rest]|];
    [|intros [= <-]; auto].
  destruct (_ && _); [done | intros [= <-]; auto].
Qed.

Lemma basic_line_implements :
  implements
    (λ l, try_continue is_JSONDecodeError (Statistics.weibo_line l))
    basic_effect.
Proof.
  intros l t. unfold basic_effect.
  unfold try_continue, Statistics.weibo_line, bind, lift, modify.
  destruct l as [|v]; [done|].
  destruct v as [| | | | | |d]; try done.
  cbn [json_loads get].
  destruct (truthy (default (JStr []) (assoc (utf8 "created_at") d))); [|done].
  cbn [negb].
  destruct (strptime_year _) as [y|e] eqn:Hparse; cbn [rbind].
  - unfold Statistics.setdefault. rewrite (alter_insert_default 0). reflexivity.
  - by destruct (strptime_year_raises _ _ Hparse) as [-> | ->].
Qed.

Lemma basic_fold lines :
  Statistics.process_weibo_jsonl lines = fold_effects basic_effect lines ∅.
Proof. apply returning_for_each, basic_line_implements. Qed.

End line_contributions.

(** ** Location lines *)

(** The display names: the values of [CHINA_PROVINCES_MAP]. *)
Definition canonical_names : gset str :=
  list_to_set (Statistics.CHINA_PROVINCES_MAP_items.*2).

Definition mapped_to_canonical (province : str) : bool :=
  match Statistics.CHINA_PROVINCES_MAP !! province with
  | Some name => bool_decide (name ∈ canonical_names)
  | None => false
  end.

(** Every member of [CHINA_PROVINCES] is a key of [CHINA_PROVINCES_MAP]:
    the subscript in the loop cannot raise [KeyError]. *)
Lemma provinces_mapped province :
  province ∈ Statistics.CHINA_PROVINCES →
  ∃ name, Statistics.CHINA_PROVINCES_MAP !! province = Some name
          ∧ name ∈ canonical_names.
Proof.
  intros Hin. apply elem_of_elements in Hin.
  assert (Hall : forallb mapped_to_canonical
                   (elements Statistics.CHINA_PROVINCES) = true)
    by (vm_compute; reflexivity).
  rewrite forallb_forall in Hall.
  apply list_elem_of_In, Hall in Hin. unfold mapped_to_canonical in Hin.
  destruct (Statistics.CHINA_PROVINCES_MAP !! province) as [name|]; [|done].
  exists name. split; [done|]. by apply bool_decide_eq_true in Hin.
Qed.

(** The display name a line is counted under, if any. *)
Definition region_of (l : line) : option str :=
  match l with
  | Decoded (JDict d) =>
    match default (JStr []) (assoc (utf8 "ip_location") d) with
    | JStr s =>
      match Statistics.search_province s with
      | Some province =>
        if bool_decide (province ∈ Statistics.CHINA_PROVINCES)
        then Statistics.CHINA_PROVINCES_MAP !! province
        else None
      | None => None
      end
    | _ => None
    end
  | _ => None
  end.

Definition ip_effect (l : line) : result (gmap str Z → gmap str Z) :=
  match l with
  | Malformed => Ok id
  | Decoded (JDict d) =>
    Ok (match region_of l with
        | Some name => bump Z.add 0 name 1
        | None => id
        end)
  | Decoded _ => Raise AttributeError
  end.

Lemma ip_line_implements :
  implements
    (λ l, try_continue is_JSONDecodeError (Statistics.ip_line l))
    ip_effect.
Proof.
  intros l t. unfold ip_effect, region_of.
  unfold try_continue, Statistics.ip_line, bind, lift, modify.
  destruct l as [|v]; [done|].
  destruct v as [| | | | | |d]; try done.
  cbn [json_loads get].
  destruct (default (JStr []) (assoc (utf8 "ip_location") d)); try done.
  destruct (Statistics.search_province s) as [province|]; [|done].
  destruct (bool_decide (province ∈ Statistics.CHINA_PROVINCES)) eqn:Hin; [|done].
  apply bool_decide_eq_true in Hin.
  destruct (provinces_mapped province Hin) as (name & -> & _). reflexivity.
Qed.

Lemma ip_counter_fold lines :
  Statistics.ip_counter lines = fold_effects ip_effect lines ∅.
Proof. apply returning_for_each, ip_line_implements. Qed.

Lemma region_of_canonical l name :
  region_of l = Some name → name ∈ canonical_names.
Proof.
  unfold region_of. destruct l as [|[| | | | | |d]]; try done.
  destruct (default _ _); try done.
  destruct (Statistics.search_province s) as [province|]; [|done].
  destruct (bool_decide _) eqn:Hin; [|done].
  apply bool_decide_eq_true in Hin.
  destruct (provinces_mapped province Hin) as (name' & -> & Hcanon).
  by intros [= <-].
Qed.

(** ** Counting *)

Definition count_if {X} (p : X → bool) (xs : list X) : Z :=
  Z.of_nat (length (List.filter p xs)).

Lemma count_if_foldr {X} (p : X → bool) (xs : list X) :
  foldr (λ x n, (if p x then 1 else 0) + n) 0 xs = count_if p xs.
Proof.
  unfold count_if. induction xs as [|x xs IH]; simpl; [done|].
  rewrite IH. destruct (p x); simpl length; lia.
Qed.

Lemma count_if_complement {X} (p : X → bool) (xs : list X) :
  count_if p xs = Z.of_nat (length xs) - count_if (λ x, negb (p x)) xs.
Proof.
  unfold count_if. induction xs as [|x xs IH]; simpl; [done|].
  destruct (p x); simpl length; lia.
Qed.


(** * The claims *)

Section claims.
Context `{Runtime}.

Definition has_year (l : line) : bool := bool_decide (is_Some (weibo_year l)).

(** The only-microblog variant never raises. *)
Lemma only_weibo_returns lines :
  ∃ t, StatisticsOnlyWeibo.process_weibo_jsonl lines = Ok t.
Proof.
  rewrite only_weibo_fold.
  assert (Hok : is_Ok (fold_effects weibo_effect lines ∅) = true).
  { apply fold_effects_Ok_iff, Forall_forall. done. }
  destruct (fold_effects weibo_effect lines ∅) as [t|]; [by exists t | done].
Qed.

(** ** Order of the records *)

(** C4: for either source, the yearly aggregation of a permutation of
    the input yields the same table as that of the input.  The video
    pass and the basic microblog pass return a table or abort; on a
    permuted input they return the same table or abort as well.  The
    extended microblog pass always returns a table, the same one. *)
Theorem C4_permutation_invariant :
  (∀ data data', data ≡ₚ data' →
     table_of (Statistics.process_data data)
     = table_of (Statistics.process_data data'))
  ∧ (∀ lines lines', lines ≡ₚ lines' →
       table_of (Statistics.process_weibo_jsonl lines)
       = table_of (Statistics.process_weibo_jsonl lines'))
  ∧ (∀ lines lines', lines ≡ₚ lines' →
       StatisticsOnlyWeibo.process_weibo_jsonl lines
       = StatisticsOnlyWeibo.process_weibo_jsonl lines').
Proof.
  split; [|split].
  - intros data data' Hperm. rewrite !process_data_fold.
    apply fold_effects_Permutation; [|done].
    intros x y f g s. unfold video_effect.
    destruct (video_contribution x) as [[y1 δ1]|]; [|done].
    destruct (video_contribution y) as [[y2 δ2]|]; [|done].
    intros [= <-] [= <-]. apply bump_comm, video_plus_comm.
  - intros lines lines' Hperm. rewrite !basic_fold.
    apply fold_effects_Permutation; [|done].
    intros x y f g s. unfold basic_effect.
    assert (Hc : ∀ (y1 y2 : Z) (t : gmap Z Z),
                   bump Z.add 0 y1 1 (bump Z.add 0 y2 1 t)
                          = bump Z.add 0 y2 1 (bump Z.add 0 y1 1 t))
      by (intros; apply bump_comm; intros; lia).
    destruct x as [|[| | | | | |d1]], y as [|[| | | | | |d2]]; try done;
      repeat match goal with
             | |- context [truthy ?v] => destruct (truthy v)
             | |- context [strptime_year ?v] => destruct (strptime_year v)
             end; cbn [rbind]; try done; intros [= <-] [= <-]; done.
  - intros lines lines' Hperm.
    destruct (only_weibo_returns lines) as [t Ht].
    destruct (only_weibo_returns lines') as [t' Ht'].
    rewrite Ht, Ht'. f_equal.
    assert (Heq : table_of (StatisticsOnlyWeibo.process_weibo_jsonl lines)
                  = table_of (StatisticsOnlyWeibo.process_weibo_jsonl lines')).
    { rewrite !only_weibo_fold. apply fold_effects_Permutation; [|done].
      intros x y f g s. unfold weibo_effect. intros [= <-] [= <-].
      destruct (weibo_contribution x) as [[y1 δ1]|]; [|done].
      destruct (weibo_contribution y) as [[y2 δ2]|]; [|done].
      apply bump_comm, weibo_plus_comm. }
    rewrite Ht, Ht' in Heq. by injection Heq.
Qed.

(** ** Post counts *)

Definition has_video_year (item : json) : bool := is_Ok (video_year item).

Lemma weibo_effect_posts l f t :
  weibo_effect l = Ok f →
  total StatisticsOnlyWeibo.post_count (f t)
  = total StatisticsOnlyWeibo.post_count t + (if has_year l then 1 else 0).
Proof.
  unfold weibo_effect, weibo_contribution, has_year. intros [= <-].
  destruct l as [|[| | | | | |d]];
    try (rewrite bool_decide_eq_false_2 by (by intros [? ?]); simpl; lia).
  destruct (weibo_year (Decoded (JDict d))) as [y|]; cbn [fmap option_fmap option_map].
  - rewrite bool_decide_eq_true_2 by done.
    by rewrite (total_bump weibo_plus StatisticsOnlyWeibo.zero_entry).
  - rewrite bool_decide_eq_false_2 by (by intros [? ?]). simpl. lia.
Qed.

Lemma basic_effect_posts l f (t : gmap Z Z) :
  basic_effect l = Ok f →
  total id (f t) = total id t + (if has_year l then 1 else 0).
Proof.
  unfold basic_effect, has_year, weibo_year.
  destruct l as [|[| | | | | |d]]; try done;
    try (intros [= <-]; rewrite bool_decide_eq_false_2 by (by intros [? ?]);
         simpl; lia).
  cbv zeta. destruct (truthy _).
  - destruct (strptime_year _) as [y|e]; cbn [rbind table_of]; [|done].
    intros [= <-]. rewrite bool_decide_eq_true_2 by done.
    by rewrite (total_bump Z.add 0).
  - intros [= <-]. rewrite bool_decide_eq_false_2 by (by intros [? ?]).
    simpl. lia.
Qed.

Lemma video_effect_posts item f t :
  video_effect item = Ok f →
  total Statistics.post_count (f t)
  = total Statistics.post_count t + (if has_video_year item then 1 else 0).
Proof.
  unfold video_effect, video_contribution, has_video_year.
  destruct item as [| | | | | |d]; try done.
  destruct (video_year (JDict d)) as [y|]; cbn [rbind]; [|done].
  repeat (destruct (engagement d _); cbn [rbind]; [|done]).
  intros [= <-]. cbn [fst snd is_Ok].
  by rewrite (total_bump video_plus Statistics.zero_entry).
Qed.

Lemma only_weibo_post_total lines t :
  StatisticsOnlyWeibo.process_weibo_jsonl lines = Ok t →
  total StatisticsOnlyWeibo.post_count t = count_if has_year lines.
Proof.
  intros Ht. rewrite only_weibo_fold in Ht.
  destruct (fold_effects_measure weibo_effect
              (total StatisticsOnlyWeibo.post_count)
              (λ l, if has_year l then 1 else 0) (λ _, True) lines ∅ t)
    as [_ Hsum]; [|done|done|].
  { intros l f s Hl _. split; [done|]. by apply weibo_effect_posts. }
  rewrite total_empty, count_if_foldr in Hsum. lia.
Qed.

Lemma basic_post_total lines t :
  Statistics.process_weibo_jsonl lines = Ok t →
  total id t = count_if has_year lines.
Proof.
  intros Ht. rewrite basic_fold in Ht.
  destruct (fold_effects_measure basic_effect (total id)
              (λ l, if has_year l then 1 else 0) (λ _, True) lines ∅ t)
    as [_ Hsum]; [|done|done|].
  { intros l f s Hl _. split; [done|]. by apply basic_effect_posts. }
  rewrite total_empty, count_if_foldr in Hsum. lia.
Qed.

Lemma video_post_total data t :
  Statistics.process_data data = Ok t →
  total Statistics.post_count t = count_if has_video_year data.
Proof.
  intros Ht. rewrite process_data_fold in Ht.
  destruct (fold_effects_measure video_effect (total Statistics.post_count)
              (λ item, if has_video_year item then 1 else 0) (λ _, True)
              data ∅ t)
    as [_ Hsum]; [|done|done|].
  { intros item f s Hi _. split; [done|]. by apply video_effect_posts. }
  rewrite total_empty, count_if_foldr in Hsum. lia.
Qed.

(** C5: the per-year post counts of the returned table add up to the
    number of input records that produced a valid year, which is the
    number of records less those without one.  The extended microblog
    pass always returns; the other two passes return a table unless a
    record makes them abort. *)
Theorem C5_post_count_sum :
  (∀ lines, ∃ t,
     StatisticsOnlyWeibo.process_weibo_jsonl lines = Ok t
     ∧ total StatisticsOnlyWeibo.post_count t = count_if has_year lines
     ∧ total StatisticsOnlyWeibo.post_count t
       = Z.of_nat (length lines) - count_if (λ l, negb (has_year l)) lines)
  ∧ (∀ lines t,
       Statistics.process_weibo_jsonl lines = Ok t →
       total id t = count_if has_year lines
       ∧ total id t
         = Z.of_nat (length lines) - count_if (λ l, negb (has_year l)) lines)
  ∧ (∀ data t,
       Statistics.process_data data = Ok t →
       total Statistics.post_count t = count_if has_video_year data
       ∧ total Statistics.post_count t
         = Z.of_nat (length data)
           - count_if (λ item, negb (has_video_year item)) data).
Proof.
  split; [|split].
  - intros lines. destruct (only_weibo_returns lines) as [t Ht].
    exists t. split; [done|]. rewrite <- count_if_complement.
    split; by apply only_weibo_post_total.
  - intros lines t Ht. rewrite <- count_if_complement.
    split; by apply basic_post_total.
  - intros data t Ht. rewrite <- count_if_complement.
    split; by apply video_post_total.
Qed.

(** ** Video records: coercion and time stamps *)

Lemma not_Ok_raises {A} (r : result A) :
  is_Ok r = false → ∃ e, r = Raise e.
Proof. destruct r as [a|e]; [done | by exists e]. Qed.

Lemma video_effect_Ok_inv d f :
  video_effect (JDict d) = Ok f →
  ∃ y l c m s,
    video_year (JDict d) = Ok y
    ∧ engagement d "liked_count" = Ok l
    ∧ engagement d "collected_count" = Ok c
    ∧ engagement d "comment_count" = Ok m
    ∧ engagement d "share_count" = Ok s
    ∧ f = bump video_plus Statistics.zero_entry y
            {| Statistics.post_count := 1; Statistics.total_likes := l;
               Statistics.total_collections := c;
               Statistics.total_comments := m;
               Statistics.total_shares := s |}.
Proof.
  unfold video_effect, video_contribution.
  destruct (video_year (JDict d)) as [y|]; cbn [rbind]; [|done].
  destruct (engagement d "liked_count") as [l|]; cbn [rbind]; [|done].
  destruct (engagement d "collected_count") as [c|]; cbn [rbind]; [|done].
  destruct (engagement d "comment_count") as [m|]; cbn [rbind]; [|done].
  destruct (engagement d "share_count") as [s|]; cbn [rbind]; [|done].
  intros [= <-]. by exists y, l, c, m, s.
Qed.

Lemma process_data_raises pre item post :
  is_Ok (video_effect item) = false →
  ∃ e, Statistics.process_data (pre ++ item :: post) = Raise e.
Proof.
  intros Hitem. apply not_Ok_raises. rewrite process_data_fold.
  destruct (video_effect item) as [|e] eqn:He; [done|].
  by apply fold_effects_raise with e.
Qed.

Definition engagement_keys : list string :=
  ["liked_count"; "collected_count"; "comment_count"; "share_count"]%string.

(** C3: on a video record with a valid time stamp, an engagement field
    that is absent counts 0 and one that is present counts [int] of its
    value; the record adds these four numbers and one post to its year.
    When [int] raises on a present value, nothing catches the exception
    and the whole pass raises, whatever the other records are. *)
Theorem C3_engagement_coercion pre d post y :
  video_year (JDict d) = Ok y →
  (∀ key, assoc (utf8 key) d = None → engagement d key = Ok 0)
  ∧ (∀ key v, assoc (utf8 key) d = Some v → engagement d key = int v)
  ∧ (∀ t l c m s,
       Statistics.process_data pre = Ok t →
       engagement d "liked_count" = Ok l →
       engagement d "collected_count" = Ok c →
       engagement d "comment_count" = Ok m →
       engagement d "share_count" = Ok s →
       Statistics.process_data (pre ++ [JDict d])
       = Ok (<[y := video_plus (default Statistics.zero_entry (t !! y))
                      {| Statistics.post_count := 1;
                         Statistics.total_likes := l;
                         Statistics.total_collections := c;
                         Statistics.total_comments := m;
                         Statistics.total_shares := s |}]> t))
  ∧ (∀ key v e,
       key ∈ engagement_keys →
       assoc (utf8 key) d = Some v → int v = Raise e →
       ∃ e', Statistics.process_data (pre ++ JDict d :: post) = Raise e').
Proof.
  intros Hy. repeat split.
  - intros key Hkey. unfold engagement. by rewrite Hkey.
  - intros key v Hkey. unfold engagement. by rewrite Hkey.
  - intros t l c m s Hpre Hl Hc Hm Hs.
    rewrite process_data_fold in *. rewrite fold_effects_app, Hpre.
    cbn [rbind fold_effects]. unfold video_effect, video_contribution.
    rewrite Hy, Hl, Hc, Hm, Hs. reflexivity.
  - intros key v e Hkey Hv Hint. apply process_data_raises.
    destruct (video_effect (JDict d)) as [f|] eqn:Hf; [|done].
    apply video_effect_Ok_inv in Hf
      as (? & l & c & m & s & _ & Hl & Hc & Hm & Hs & _).
    assert (Hraise : engagement d key = Raise e)
      by (unfold engagement; by rewrite Hv).
    unfold engagement_keys in Hkey.
    repeat (apply elem_of_cons in Hkey as [-> | Hkey]; [congruence|]).
    by apply elem_of_nil in Hkey.
Qed.





(** ** Microblog lines: dates *)

Lemma fold_effects_skip {S X} (eff : X → result (S → S)) pre x post s :
  eff x = Ok id →
  fold_effects eff (pre ++ x :: post) s = fold_effects eff (pre ++ post) s.
Proof.
  intros Hx. rewrite !fold_effects_app.
  destruct (fold_effects eff pre s); cbn [rbind fold_effects]; [|done].
  by rewrite Hx.
Qed.

(** A record whose date is missing or empty is passed over by both
    variants. *)
Lemma empty_date_skipped pre d post :
  truthy (default (JStr []) (assoc (utf8 "created_at") d)) = false →
  Statistics.process_weibo_jsonl (pre ++ Decoded (JDict d) :: post)
  = Statistics.process_weibo_jsonl (pre ++ post)
  ∧ StatisticsOnlyWeibo.process_weibo_jsonl (pre ++ Decoded (JDict d) :: post)
    = StatisticsOnlyWeibo.process_weibo_jsonl (pre ++ post).
Proof.
  intros Hempty. split.
  - rewrite !basic_fold. apply fold_effects_skip.
    unfold basic_effect. by rewrite Hempty.
  - rewrite !only_weibo_fold. apply fold_effects_skip.
    unfold weibo_effect, weibo_contribution, weibo_year. by rewrite Hempty.
Qed.

(** A record whose non-empty date does not parse is passed over by the
    variant of [statistics_only_weibo.py], which catches [Exception];
    in [statistics.py], which catches [JSONDecodeError] only, it makes
    the whole pass raise. *)
Lemma unparsable_date_outcomes pre d post date e :
  assoc (utf8 "created_at") d = Some date →
  truthy date = true →
  strptime_year date = Raise e →
  StatisticsOnlyWeibo.process_weibo_jsonl (pre ++ Decoded (JDict d) :: post)
  = StatisticsOnlyWeibo.process_weibo_jsonl (pre ++ post)
  ∧ ∃ e', Statistics.process_weibo_jsonl (pre ++ Decoded (JDict d) :: post)
          = Raise e'.
Proof.
  intros Hdate Htruthy Hparse. split.
  - rewrite !only_weibo_fold. apply fold_effects_skip.
    unfold weibo_effect, weibo_contribution, weibo_year.
    rewrite Hdate. simpl. by rewrite Htruthy, Hparse.
  - apply not_Ok_raises. rewrite basic_fold.
    apply fold_effects_raise with e. unfold basic_effect.
    rewrite Hdate. simpl. by rewrite Htruthy, Hparse.
Qed.

(** ** Microblog lines: reads *)

(** The value of a run of decimal digits. *)
Fixpoint numeral_value (acc : Z) (s : str) : option Z :=
  match s with
  | [] => Some acc
  | c :: s' =>
    match unicode_decimal c with
    | Some d => numeral_value (10 * acc + d) s'
    | None => None
    end
  end.

(** A numeric string: one decimal digit or more, and nothing else. *)
Definition decimal_numeral (s : str) : option Z :=
  match s with
  | [] => None
  | _ => numeral_value 0 s
  end.

(** The reads of a record, in the words of the specification: 3000 when
    the field is absent; for a string the number left after the commas
    are removed, 0 when that is not numeric; an integer itself; a
    boolean as 0 or 1; 0 for every other value. *)
Definition spec_reads (field : option json) : Z :=
  match field with
  | None => 3000
  | Some (JStr s) => default 0 (decimal_numeral (remove_char 44%N s))
  | Some (JInt z) => z
  | Some (JBool b) => Z.b2z b
  | Some (JNull | JFloat _ | JList _ | JDict _) => 0
  end.

Lemma isdigit_not_ascii_punct c :
  unicode_isdigit c = true → (c < 48)%N → False.
Proof.
  intros Hd Hc. rewrite isdigit_ascii in Hd by lia.
  unfold ascii_range in Hd. apply andb_true_iff in Hd as [Hlo _].
  apply N.leb_le in Hlo. lia.
Qed.

Lemma isdigit_not_underscore c :
  unicode_isdigit c = true → (c =? 95)%N = false.
Proof.
  intros Hd. apply N.eqb_neq. intros ->.
  rewrite isdigit_ascii in Hd by done. done.
Qed.

Lemma int_digits_numeral s acc after_digit :
  forallb unicode_isdigit s = true →
  int_digits acc after_digit s
  = match s with
    | [] => if after_digit then Some acc else None
    | _ => numeral_value acc s
    end.
Proof.
  revert acc after_digit. induction s as [|c s IH]; intros acc b Hs; [done|].
  cbn [forallb] in Hs. apply andb_true_iff in Hs as [Hc Hs].
  cbn [int_digits numeral_value]. rewrite (isdigit_not_underscore c Hc).
  destruct (unicode_decimal c) as [d|]; [|done].
  rewrite (IH _ true Hs). by destruct s.
Qed.

Lemma numeral_value_isdigit s acc z :
  numeral_value acc s = Some z → forallb unicode_isdigit s = true.
Proof.
  revert acc. induction s as [|c s IH]; intros acc; [done|].
  cbn [numeral_value forallb].
  destruct (unicode_decimal c) as [d|] eqn:Hc; [|done].
  intros Hs. rewrite (decimal_isdigit c) by (by rewrite Hc).
  by rewrite (IH _ Hs).
Qed.

Lemma int_space_not_digit c :
  unicode_isdigit c = true → int_space c = false.
Proof.
  intros Hd. unfold int_space. destruct (isspace c) eqn:Hs; [|done].
  rewrite (isdigit_not_space c Hs) in Hd. done.
Qed.

Lemma drop_while_int_space_digits s :
  forallb unicode_isdigit s = true → drop_while int_space s = s.
Proof.
  destruct s as [|c s]; [done|]. cbn [forallb drop_while].
  intros [Hc _]%andb_true_iff. by rewrite (int_space_not_digit c Hc).
Qed.

Lemma forallb_reverse {A} (p : A → bool) (l : list A) :
  forallb p (reverse l) = forallb p l.
Proof.
  induction l as [|a l IH]; [done|].
  rewrite reverse_cons, forallb_app, IH. simpl. rewrite andb_true_r.
  apply andb_comm.
Qed.

Lemma int_of_str_digits s :
  isdigit s = true →
  int_of_str s
  = match decimal_numeral s with Some z => Ok z | None => Raise ValueError end.
Proof.
  unfold isdigit, int_of_str. intros [Hne Hs]%andb_true_iff.
  rewrite (drop_while_int_space_digits s Hs).
  rewrite drop_while_int_space_digits by (by rewrite forallb_reverse).
  rewrite reverse_involutive.
  destruct s as [|c s]; [done|].
  pose proof Hs as Hcs. cbn [forallb] in Hs.
  apply andb_true_iff in Hs as [Hc _].
  replace (c =? 45)%N with false; [replace (c =? 43)%N with false|].
  - rewrite (int_digits_numeral (c :: s) 0 false Hcs). done.
  - symmetry. apply N.eqb_neq. intros ->.
    by apply (isdigit_not_ascii_punct 43%N).
  - symmetry. apply N.eqb_neq. intros ->.
    by apply (isdigit_not_ascii_punct 45%N).
Qed.

Lemma decimal_numeral_isdigit s z :
  decimal_numeral s = Some z → isdigit s = true.
Proof.
  unfold decimal_numeral, isdigit. destruct s as [|c s]; [done|].
  intros Hs. by rewrite (numeral_value_isdigit _ _ _ Hs).
Qed.

Lemma reads_added_spec d :
  reads_added d = spec_reads (assoc (utf8 "reads_count") d).
Proof.
  unfold reads_added, spec_reads.
  destruct (assoc (utf8 "reads_count") d) as [[| | | |s| |]|]; try done.
  cbn [default from_option id StatisticsOnlyWeibo.normalise_reads].
  destruct (isdigit (remove_char 44%N s)) eqn:Hdigit.
  - rewrite (int_of_str_digits _ Hdigit).
    by destruct (decimal_numeral (remove_char 44%N s)).
  - destruct (decimal_numeral (remove_char 44%N s)) as [z|] eqn:Hnum; [|done].
    apply decimal_numeral_isdigit in Hnum. congruence.
Qed.


Definition posts_of (t : gmap Z StatisticsOnlyWeibo.weibo_entry) (y : Z) : Z :=
  default 0 (StatisticsOnlyWeibo.post_count <$> t !! y).



(** ** The yearly CSV *)

Lemma StronglySorted_le_lt (l : list Z) :
  StronglySorted Z.le l → NoDup l → StronglySorted Z.lt l.
Proof.
  induction 1 as [|x l Hsorted IH Hall]; intros Hnodup; constructor.
  - apply IH. by apply NoDup_cons_1_2 in Hnodup.
  - apply NoDup_cons_1_1 in Hnodup.
    apply Forall_forall. intros y Hy.
    assert (x ≤ y) by (by eapply Forall_forall in Hall).
    assert (x ≠ y) by (intros ->; done). lia.
Qed.

Lemma sorted_keys_spec {V} (stats : gmap Z V) :
  StronglySorted Z.lt (Statistics.sorted_keys stats)
  ∧ ∀ y, y ∈ Statistics.sorted_keys stats ↔ is_Some (stats !! y).
Proof.
  unfold Statistics.sorted_keys. split.
  - apply StronglySorted_le_lt.
    + apply StronglySorted_merge_sort; [apply _|]. intros x y.
      destruct (Z.le_ge_cases x y); [by left | right; lia].
    + rewrite merge_sort_Permutation. apply NoDup_elements.
  - intros y. rewrite merge_sort_Permutation, elem_of_elements.
    apply elem_of_dom.
Qed.

Lemma omap_rows {V R} (stats : gmap Z V) (row : Z → V → R) (years : list Z) :
  (∀ y, y ∈ years → is_Some (stats !! y)) →
  Forall2 (λ y r, ∃ e, stats !! y = Some e ∧ r = row y e) years
    (omap (λ y, row y <$> stats !! y) years).
Proof.
  induction years as [|y years IH]; intros Hall; [constructor|].
  cbn [omap list_omap].
  destruct (Hall y) as [e He]; [by left|]. rewrite He. simpl.
  constructor; [by exists e|]. apply IH. intros y' Hy'. apply Hall. by right.
Qed.

Lemma video_years_fold data s t :
  fold_effects video_effect data s = Ok t →
  ∀ y, is_Some (t !! y)
       ↔ is_Some (s !! y) ∨ ∃ item, item ∈ data ∧ video_year item = Ok y.
Proof.
  revert s. induction data as [|item data IH]; intros s Hrun y.
  - injection Hrun as <-. split; [by left|]. intros [?|(? & []%elem_of_nil & _)]. done.
  - cbn [fold_effects] in Hrun.
    destruct (video_effect item) as [f|] eqn:Hitem; [|done].
    rewrite (IH _ Hrun y).
    destruct item as [| | | | | |d]; try done.
    apply video_effect_Ok_inv in Hitem as (y0 & l & c & m & sh & Hy0 & _ & _ & _ & _ & ->).
    rewrite lookup_bump. split.
    + intros [Hs | (item & Hin & Hy)].
      * case_decide as Hyy; [subst; right | by left].
        exists (JDict d). split; [by left | done].
      * right. exists item. split; [by right | done].
    + intros [Hs | (item & Hin & Hy)].
      * left. by case_decide.
      * apply elem_of_cons in Hin as [-> | Hin].
        -- left. rewrite decide_True by congruence. done.
        -- right. by exists item.
Qed.

Lemma video_posts_positive data t y e :
  Statistics.process_data data = Ok t →
  t !! y = Some e → 1 ≤ Statistics.post_count e.
Proof.
  intros Hrun. rewrite process_data_fold in Hrun.
  destruct (fold_effects_measure video_effect (λ _, 0) (λ _, 0)
              (λ s, ∀ y e, s !! y = Some e → 1 ≤ Statistics.post_count e)
              data ∅ t) as [Hinv _]; [|done|done|by apply Hinv].
  intros item f s Hitem Hs. split; [|done].
  destruct item as [| | | | | |d]; try done.
  apply video_effect_Ok_inv in Hitem
    as (y0 & l & c & m & sh & _ & _ & _ & _ & _ & ->).
  intros y1 e1. rewrite lookup_bump. case_decide; [|by apply Hs].
  intros [= <-]. cbn [video_plus Statistics.post_count].
  destruct (s !! y0) as [e0|] eqn:He0; simpl; [|lia].
  specialize (Hs y0 e0 He0). lia.
Qed.

(** C8: the CSV of a video table is the header [Year, Post Count, Total
    Likes, Total Collections, Total Comments, Total Shares] followed by
    one row per year of the table, the years strictly ascending, each
    row giving the year and its five totals.  A table returned by
    [process_data] has exactly the years of its input records, each with
    at least one post, so a year without records has no row. *)
Theorem C8_video_csv_rows :
  (∀ stats, ∃ years rows,
     Statistics.save_to_csv stats
     = [Statistics.CStr (utf8 "Year"); Statistics.CStr (utf8 "Post Count");
        Statistics.CStr (utf8 "Total Likes");
        Statistics.CStr (utf8 "Total Collections");
        Statistics.CStr (utf8 "Total Comments");
        Statistics.CStr (utf8 "Total Shares")] :: rows
     ∧ StronglySorted Z.lt years
     ∧ (∀ y, y ∈ years ↔ is_Some (stats !! y))
     ∧ Forall2 (λ y row, ∃ e,
          stats !! y = Some e
          ∧ row = [Statistics.CInt y;
                   Statistics.CInt (Statistics.post_count e);
                   Statistics.CInt (Statistics.total_likes e);
                   Statistics.CInt (Statistics.total_collections e);
                   Statistics.CInt (Statistics.total_comments e);
                   Statistics.CInt (Statistics.total_shares e)])
         years rows)
  ∧ (∀ data t, Statistics.process_data data = Ok t →
       ∀ y, is_Some (t !! y)
            ↔ ∃ item, item ∈ data ∧ video_year item = Ok y)
  ∧ (∀ data t y e, Statistics.process_data data = Ok t →
       t !! y = Some e → 1 ≤ Statistics.post_count e).
Proof.
  split; [|split].
  - intros stats. destruct (sorted_keys_spec stats) as [Hsorted Hkeys].
    eexists _, _. split; [reflexivity|]. split; [exact Hsorted|].
    split; [exact Hkeys|].
    apply (omap_rows stats Statistics.csv_row). intros y. apply Hkeys.
  - intros data t Hrun y. rewrite process_data_fold in Hrun.
    rewrite (video_years_fold data ∅ t Hrun y), lookup_empty.
    split; [intros [[? ?]|?]; done | by right].
  - intros data t y e. apply video_posts_positive.
Qed.

End claims.

(** * Locations *)

(** One iteration of the location loop. *)
Definition ip_step (l : line) (c : gmap str Z) : result unit * gmap str Z :=
  try_continue is_JSONDecodeError (Statistics.ip_line l) c.

Lemma literal_app {R} (text : str) (k : str → option R) (r : str) :
  Re.literal text k (text ++ r) = k r.
Proof.
  induction text as [|ch text IH]; [done|].
  cbn [Re.literal app re_lit]. by rewrite N.eqb_refl.
Qed.


Lemma take_while_token (tok tail : str) :
  Forall (λ ch, isspace ch = false) tok →
  (tail = [] ∨ ∃ w tail', tail = w :: tail' ∧ isspace w = true) →
  take_while (λ ch, negb (isspace ch)) (tok ++ tail) = tok.
Proof.
  intros Htok Htail. induction Htok as [|ch tok Hch _ IH]; simpl.
  - destruct Htail as [-> | (w & tail' & -> & Hw)]; [done|].
    simpl. by rewrite Hw.
  - by rewrite Hch, IH.
Qed.

Lemma spaces_star_token (ws tok tail : str) :
  Forall (λ ch, isspace ch = true) ws →
  tok ≠ [] →
  Forall (λ ch, isspace ch = false) tok →
  (tail = [] ∨ ∃ w tail', tail = w :: tail' ∧ isspace w = true) →
  Re.spaces_star Re.nonspaces_group (ws ++ tok ++ tail) = Some tok.
Proof.
  intros Hws Hne Htok Htail.
  assert (Hgroup : Re.nonspaces_group (tok ++ tail) = Some tok).
  { unfold Re.nonspaces_group. rewrite take_while_token by done.
    by destruct tok. }
  induction Hws as [|w ws Hw _ IH]; simpl.
  - destruct tok as [|ch tok]; [done|]. cbn [app Re.spaces_star].
    apply Forall_cons in Htok as [Hch _]. rewrite Hch. exact Hgroup.
  - by rewrite Hw, IH.
Qed.

(** The group [re.search] returns: the first run of non-space
    characters after the first marker. *)
Lemma search_province_token (pre ws tok tail : str) :
  0x53D1%N ∉ pre →
  Forall (λ ch, isspace ch = true) ws →
  tok ≠ [] →
  Forall (λ ch, isspace ch = false) tok →
  (tail = [] ∨ ∃ w tail', tail = w :: tail' ∧ isspace w = true) →
  Statistics.search_province (pre ++ Statistics.marker ++ ws ++ tok ++ tail)
  = Some tok.
Proof.
  intros Hpre Hws Hne Htok Htail. unfold Statistics.search_province.
  induction pre as [|ch pre IH].
  - cbn [app]. destruct (Statistics.marker ++ ws ++ tok ++ tail) eqn:Hs;
      cbn [Re.search]; rewrite <- Hs, literal_app, spaces_star_token; done.
  - cbn [app Re.search].
    assert (Hch : ch ≠ 0x53D1%N) by (intros ->; apply Hpre; by left).
    replace (Re.literal Statistics.marker
               (Re.spaces_star Re.nonspaces_group)
               (ch :: pre ++ Statistics.marker ++ ws ++ tok ++ tail))
      with (@None str).
    + apply IH. intros Hin. apply Hpre. by right.
    + symmetry. change Statistics.marker with [0x53D1; 0x5E03; 0x4E8E]%N.
      cbn [Re.literal]. unfold re_lit at 1.
      by rewrite (proj2 (N.eqb_neq _ _) Hch).
Qed.


Lemma ip_step_region l c :
  match l with Malformed | Decoded (JDict _) => True | _ => False end →
  ip_step l c
  = (Ok tt, match region_of l with
            | Some name => <[name := default 0 (c !! name) + 1]> c
            | None => c
            end).
Proof.
  intros Hl. pose proof (ip_line_implements l c) as Himpl.
  unfold ip_effect in Himpl. unfold ip_step.
  destruct l as [|[| | | | | |d]]; try done.
  rewrite Himpl. by destruct (region_of _).
Qed.

Lemma region_of_token d s tok name :
  assoc (utf8 "ip_location") d = Some (JStr s) →
  Statistics.search_province s = Some tok →
  tok ∈ Statistics.CHINA_PROVINCES →
  Statistics.CHINA_PROVINCES_MAP !! tok = Some name →
  region_of (Decoded (JDict d)) = Some name.
Proof.
  intros Hd Hs Hin Hname. unfold region_of. rewrite Hd. simpl.
  by rewrite Hs, bool_decide_eq_true_2.
Qed.


Lemma ip_step_token c d pre ws tok tail name :
  0x53D1%N ∉ pre →
  Forall (λ ch, isspace ch = true) ws →
  tok ≠ [] →
  Forall (λ ch, isspace ch = false) tok →
  (tail = [] ∨ ∃ w tail', tail = w :: tail' ∧ isspace w = true) →
  assoc (utf8 "ip_location") d
  = Some (JStr (pre ++ Statistics.marker ++ ws ++ tok ++ tail)) →
  tok ∈ Statistics.CHINA_PROVINCES →
  Statistics.CHINA_PROVINCES_MAP !! tok = Some name →
  ip_step (Decoded (JDict d)) c
  = (Ok tt, <[name := default 0 (c !! name) + 1]> c).
Proof.
  intros Hpre Hws Hne Htok Htail Hd Hin Hname.
  rewrite ip_step_region by done.
  erewrite region_of_token; [done|exact Hd| |done|done].
  by apply search_province_token.
Qed.



(** ** The region counter *)

Definition counted (l : line) : bool := bool_decide (is_Some (region_of l)).

Lemma count_if_le_length {X} (p : X → bool) (xs : list X) :
  count_if p xs ≤ Z.of_nat (length xs).
Proof.
  rewrite (count_if_complement p xs). unfold count_if. lia.
Qed.

Lemma ip_effect_invariant (l : line) (f : gmap str Z → gmap str Z)
    (c : gmap str Z) :
  ip_effect l = Ok f →
  dom c ⊆ canonical_names →
  dom (f c) ⊆ canonical_names
  ∧ total id (f c) = total id c + (if counted l then 1 else 0).
Proof.
  unfold ip_effect, counted. intros Hl Hc.
  destruct l as [|[| | | | | |d]]; try done.
  - injection Hl as <-. rewrite bool_decide_eq_false_2 by (by intros [? ?]).
    split; [done | simpl; lia].
  - destruct (region_of (Decoded (JDict d))) as [name|] eqn:Hname;
      injection Hl as <-.
    + rewrite bool_decide_eq_true_2 by done. split.
      * rewrite dom_bump. apply region_of_canonical in Hname.
        apply union_least; [by apply singleton_subseteq_l | done].
      * by rewrite (total_bump Z.add 0).
    + rewrite bool_decide_eq_false_2 by (by intros [? ?]).
      split; [done | simpl; lia].
Qed.

Definition readable (l : line) : Prop :=
  match l with
  | Malformed | Decoded (JDict _) => True
  | Decoded _ => False
  end.

(** C7: whatever lines have been read, the keys of the region counter
    are among the 34 display names of [CHINA_PROVINCES_MAP], and its
    values add up to the number of lines that matched a region, which is
    at most the number of lines read.  The state after a prefix of a
    run is the counter of that prefix; a line without a recognised
    region leaves the counter as it is.  The loop returns on every
    input whose decoded lines are objects. *)
Theorem C7_region_counter_invariant :
  size canonical_names = 34%nat
  ∧ (∀ lines c, Statistics.ip_counter lines = Ok c →
       dom c ⊆ canonical_names
       ∧ total id c = count_if counted lines
       ∧ total id c ≤ Z.of_nat (length lines))
  ∧ (∀ pre rest, is_Ok (Statistics.ip_counter (pre ++ rest)) = true →
       is_Ok (Statistics.ip_counter pre) = true)
  ∧ (∀ pre l c, region_of l = None →
       Statistics.ip_counter (pre ++ [l]) = Ok c →
       Statistics.ip_counter pre = Ok c)
  ∧ (∀ lines, Forall readable lines →
       is_Ok (Statistics.ip_counter lines) = true).
Proof.
  split_and!.
  - vm_compute. reflexivity.
  - intros lines c Hrun. rewrite ip_counter_fold in Hrun.
    destruct (fold_effects_measure ip_effect (total id)
                (λ l, if counted l then 1 else 0)
                (λ c : gmap str Z, dom c ⊆ canonical_names) lines ∅ c)
      as [Hdom Hsum]; [|set_solver|done|].
    { intros l f s. apply ip_effect_invariant. }
    rewrite total_empty, count_if_foldr in Hsum.
    split_and!; [done|lia|]. rewrite Hsum. apply count_if_le_length.
  - intros pre rest. rewrite !ip_counter_fold, fold_effects_app.
    by destruct (fold_effects ip_effect pre ∅).
  - intros pre l c Hl. rewrite !ip_counter_fold, fold_effects_app.
    destruct (fold_effects ip_effect pre ∅) as [c'|]; [|done].
    cbn [rbind fold_effects]. unfold ip_effect. rewrite Hl.
    by destruct l as [|[| | | | | |d]].
  - intros lines Hlines. rewrite ip_counter_fold.
    apply fold_effects_Ok_iff. eapply Forall_impl; [exact Hlines|].
    intros l Hl. by destruct l as [|[| | | | | |d]].
Qed.

(** ** The display name of 河南 *)

Definition ends_with (suffix s : str) : bool :=
  starts_with (reverse suffix) (reverse s).

Definition has_admin_suffix (name : str) : bool :=
  ends_with (utf8 "省") name || ends_with (utf8 "市") name
  || ends_with (utf8 "自治区") name.

(** The short names of the mainland: those not written with 中国. *)
Definition mainland (short : str) : bool :=
  negb (starts_with (utf8 "中国") short).

Definition suffixed_unless_henan (item : str * str) : bool :=
  negb (mainland item.1) || bool_decide (item.1 = utf8 "河南")
  || has_admin_suffix item.2.

(** C10: [CHINA_PROVINCES_MAP] sends 河南 to 河南 itself, a name without
    suffix, whereas every other mainland short name is sent to a name
    ending in 省, 市 or 自治区; a record located in 河南 is therefore
    counted under the key 河南, and the key 河南省 is not touched. *)
Theorem C10_henan_display_name :
  Statistics.CHINA_PROVINCES_MAP !! utf8 "河南" = Some (utf8 "河南")
  ∧ StatisticsOnlyWeibo.CHINA_PROVINCES_MAP !! utf8 "河南" = Some (utf8 "河南")
  ∧ has_admin_suffix (utf8 "河南") = false
  ∧ (∀ short name,
       (short, name) ∈ Statistics.CHINA_PROVINCES_MAP_items →
       mainland short = true → short ≠ utf8 "河南" →
       has_admin_suffix name = true)
  ∧ (∀ c d pre ws tail,
       0x53D1%N ∉ pre →
       Forall (λ ch, isspace ch = true) ws →
       (tail = [] ∨ ∃ w tail', tail = w :: tail' ∧ isspace w = true) →
       assoc (utf8 "ip_location") d
       = Some (JStr (pre ++ Statistics.marker ++ ws ++ utf8 "河南" ++ tail)) →
       ∃ c',
         ip_step (Decoded (JDict d)) c = (Ok tt, c')
         ∧ c' !! utf8 "河南" = Some (default 0 (c !! utf8 "河南") + 1)
         ∧ c' !! utf8 "河南省" = c !! utf8 "河南省").
Proof.
  split_and!.
  - vm_compute. reflexivity.
  - vm_compute. reflexivity.
  - vm_compute. reflexivity.
  - intros short name Hin Hmain Hne.
    assert (Hall : forallb suffixed_unless_henan
                     Statistics.CHINA_PROVINCES_MAP_items = true)
      by (vm_compute; reflexivity).
    rewrite forallb_forall in Hall.
    apply list_elem_of_In, Hall in Hin. unfold suffixed_unless_henan in Hin.
    cbn [fst snd] in Hin. rewrite Hmain in Hin.
    rewrite bool_decide_eq_false_2 in Hin by done. exact Hin.
  - intros c d pre ws tail Hpre Hws Htail Hd.
    eexists. split.
    + apply ip_step_token with pre ws (utf8 "河南") tail; try done.
      vm_compute. repeat constructor.
    + split; [by rewrite lookup_insert_eq|].
      apply lookup_insert_ne. vm_compute. discriminate.
Qed.

(** * Runs on concrete inputs *)

Section concrete.
#[local] Existing Instance Utc.runtime.

Definition dated (date : string) : line :=
  Decoded (Utc.obj [("created_at", JStr (utf8 date))]%string).

Definition slash_dated_file : list line :=
  [dated "2019-03-05 08:00:00"; dated "2025/07/01 12:28:00";
   dated "2021-01-01 00:00:00"].

(** C1 on [statistics.py]: a line whose date is written with slashes is
    not passed over; [strptime] raises [ValueError], which the handler
    for [JSONDecodeError] lets through, and the pass is aborted.  The
    same file is aggregated by [statistics_only_weibo.py] as if the line
    were not there. *)
Theorem C1_unparsable_date_aborts_basic_pass :
  Statistics.process_weibo_jsonl slash_dated_file = Raise ValueError
  ∧ StatisticsOnlyWeibo.process_weibo_jsonl slash_dated_file
    = StatisticsOnlyWeibo.process_weibo_jsonl
        [dated "2019-03-05 08:00:00"; dated "2021-01-01 00:00:00"]
  ∧ is_Ok (StatisticsOnlyWeibo.process_weibo_jsonl slash_dated_file) = true.
Proof. split_and!; vm_compute; reflexivity. Qed.



Definition comma_reads : list (str * json) :=
  prod_map utf8 id <$>
    [("created_at", JStr (utf8 "2025-07-01 12:28:00"));
     ("reads_count", JStr (utf8 "1,234"))]%string.


Definition video_2025 : list (str * json) :=
  prod_map utf8 id <$>
    [("create_time", JInt 1751344080); ("liked_count", JStr (utf8 "12"));
     ("comment_count", JInt 3)]%string.

Definition video_2019 : list (str * json) :=
  prod_map utf8 id <$>
    [("create_time", JInt 1551772800); ("liked_count", JInt 7);
     ("share_count", JInt 1)]%string.

Definition video_bad_likes : list (str * json) :=
  prod_map utf8 id <$>
    [("create_time", JInt 1751344080); ("liked_count", JStr (utf8 "many"))]%string.

Lemma C3_engagement_coercion_witness :
  video_year (JDict video_2025) = Ok 2025
  ∧ Statistics.process_data ([JDict video_2019] ++ [JDict video_2025])
    = Ok (<[2025 := {| Statistics.post_count := 1;
                       Statistics.total_likes := 12;
                       Statistics.total_collections := 0;
                       Statistics.total_comments := 3;
                       Statistics.total_shares := 0 |}]>
            (<[2019 := {| Statistics.post_count := 1;
                          Statistics.total_likes := 7;
                          Statistics.total_collections := 0;
                          Statistics.total_comments := 0;
                          Statistics.total_shares := 1 |}]> ∅)).
Proof.
  assert (Hy : video_year (JDict video_2025) = Ok 2025)
    by (vm_compute; reflexivity).
  split; [exact Hy|].
  destruct (C3_engagement_coercion [JDict video_2019] video_2025 [] 2025 Hy)
    as (_ & _ & Hfold & _).
  rewrite (Hfold (<[2019 := {| Statistics.post_count := 1;
                               Statistics.total_likes := 7;
                               Statistics.total_collections := 0;
                               Statistics.total_comments := 0;
                               Statistics.total_shares := 1 |}]> ∅)
             12 0 3 0); vm_compute; reflexivity.
Defined.

Example bad_likes_abort :
  Statistics.process_data [JDict video_2019; JDict video_bad_likes; JDict video_2025]
  = Raise ValueError.
Proof. vm_compute. reflexivity. Qed.

Lemma C4_permutation_invariant_witness :
  table_of (Statistics.process_data [JDict video_2019; JDict video_2025])
  = table_of (Statistics.process_data [JDict video_2025; JDict video_2019])
  ∧ StatisticsOnlyWeibo.process_weibo_jsonl
      [Decoded (JDict comma_reads); Malformed]
    = StatisticsOnlyWeibo.process_weibo_jsonl
        [Malformed; Decoded (JDict comma_reads)].
Proof.
  destruct C4_permutation_invariant as (Hvideo & _ & Hweibo).
  split; [apply Hvideo | apply Hweibo]; apply perm_swap.
Defined.

Definition three_years_file : list line :=
  [dated "2019-03-05 08:00:00"; Malformed; dated "2019-11-30 23:59:59";
   dated ""; dated "2021-01-01 00:00:00"].

Lemma C5_post_count_sum_witness :
  (∃ t, Statistics.process_weibo_jsonl three_years_file = Ok t
        ∧ total id t = 3)
  ∧ (∃ t, Statistics.process_data [JDict video_2019; JDict video_2025] = Ok t
          ∧ total Statistics.post_count t = 2).
Proof.
  destruct C5_post_count_sum as (_ & Hbasic & Hvideo). split.
  - eexists. split; [vm_compute; reflexivity|].
    rewrite (proj1 (Hbasic three_years_file _ ltac:(vm_compute; reflexivity))).
    vm_compute. reflexivity.
  - eexists. split; [vm_compute; reflexivity|].
    rewrite (proj1 (Hvideo [JDict video_2019; JDict video_2025] _
                      ltac:(vm_compute; reflexivity))).
    vm_compute. reflexivity.
Defined.

Definition located (text : string) : line :=
  Decoded (Utc.obj [("ip_location", JStr (utf8 text))]%string).



Definition located_file : list line :=
  [located "发布于 北京 today"; located "发布于 Mars"; Malformed;
   located "发布于 河南"; located "发布于 北京"; dated "2019-03-05 08:00:00"].

Lemma C7_region_counter_invariant_witness :
  ∃ c, Statistics.ip_counter located_file = Ok c
       ∧ dom c ⊆ canonical_names
       ∧ total id c = 3
       ∧ total id c ≤ 6.
Proof.
  destruct C7_region_counter_invariant as (_ & Hinv & _).
  eexists. split; [vm_compute; reflexivity|].
  destruct (Hinv located_file _ ltac:(vm_compute; reflexivity))
    as (Hdom & Hsum & Hle).
  split_and!; [exact Hdom | rewrite Hsum; vm_compute; reflexivity | exact Hle].
Defined.

Lemma C8_video_csv_rows_witness :
  ∃ t, Statistics.process_data [JDict video_2025; JDict video_2019] = Ok t
       ∧ (is_Some (t !! 2019)
          ↔ ∃ item, item ∈ [JDict video_2025; JDict video_2019]
                    ∧ video_year item = Ok 2019)
       ∧ ∀ y e, t !! y = Some e → 1 ≤ Statistics.post_count e.
Proof.
  destruct C8_video_csv_rows as (_ & Hyears & Hposts).
  eexists. split; [vm_compute; reflexivity|]. split.
  - apply Hyears. vm_compute. reflexivity.
  - intros y e. apply (Hposts [JDict video_2025; JDict video_2019]).
    vm_compute. reflexivity.
Defined.

Example video_csv :
  Statistics.save_to_csv
    (<[2025 := {| Statistics.post_count := 1; Statistics.total_likes := 12;
                  Statistics.total_collections := 0;
                  Statistics.total_comments := 3;
                  Statistics.total_shares := 0 |}]>
       (<[2019 := {| Statistics.post_count := 1; Statistics.total_likes := 7;
                     Statistics.total_collections := 0;
                     Statistics.total_comments := 0;
                     Statistics.total_shares := 1 |}]> ∅))
  = [Statistics.csv_header;
     [Statistics.CInt 2019; Statistics.CInt 1; Statistics.CInt 7;
      Statistics.CInt 0; Statistics.CInt 0; Statistics.CInt 1];
     [Statistics.CInt 2025; Statistics.CInt 1; Statistics.CInt 12;
      Statistics.CInt 0; Statistics.CInt 3; Statistics.CInt 0]].
Proof. vm_compute. reflexivity. Qed.




Example string_timestamp_aborts :
  Statistics.process_data
    [Utc.obj [("create_time", JStr (utf8 "1751344080"))]%string]
  = Raise TypeError.
Proof. vm_compute. reflexivity. Qed.

Lemma C10_henan_display_name_witness :
  has_admin_suffix (utf8 "河北省") = true
  ∧ ∃ c',
      ip_step
        (Decoded (JDict [(utf8 "ip_location",
                          JStr ([] ++ Statistics.marker ++ utf8 " "
                                ++ utf8 "河南" ++ []))])) ∅
      = (Ok tt, c')
      ∧ c' !! utf8 "河南" = Some (default 0 ((∅ : gmap str Z) !! utf8 "河南") + 1)
      ∧ c' !! utf8 "河南省" = (∅ : gmap str Z) !! utf8 "河南省".
Proof.
  destruct C10_henan_display_name as (_ & _ & _ & Hsuffix & Hcount). split.
  - apply (Hsuffix (utf8 "河北") (utf8 "河北省")).
    + vm_compute. do 4 right. left.
    + vm_compute. reflexivity.
    + vm_compute. discriminate.
  - apply (Hcount ∅ _ [] (utf8 " ") []).
    + apply not_elem_of_nil.
    + vm_compute. repeat constructor.
    + by left.
    + reflexivity.
Defined.

End concrete.

(** * Further properties of the passes *)

(** ** Tables keyed by a contribution

    Every loop of the two files adds to the entry of one key what the
    record contributes, passes the record over, or raises. *)

Definition sum_of {X} (f : X → Z) (xs : list X) : Z :=
  foldr (λ x n, f x + n) 0 xs.

Section keyed.
Context `{Countable K} {V X : Type} (plus : V → V → V) (zero : V).
Context (contrib : X → result (option (K * V))).

Definition effect_of (x : X) : result (gmap K V → gmap K V) :=
  rbind (contrib x) (λ o,
    Ok (match o with
        | Some (k, δ) => bump plus zero k δ
        | None => id
        end)).

(** What [x] adds, under the measure [μ], to the entry of [k]. *)
Definition share (μ : V → Z) (k : K) (x : X) : Z :=
  match contrib x with
  | Ok (Some (k', δ)) => if decide (k' = k) then μ δ else 0
  | _ => 0
  end.

(** Tables are merged entry by entry. *)
Definition merge (a b : gmap K V) : gmap K V :=
  union_with (λ u v, Some (plus u v)) a b.

Lemma keyed_sum μ k xs s t :
  μ zero = 0 → (∀ a b, μ (plus a b) = μ a + μ b) →
  fold_effects effect_of xs s = Ok t →
  μ (default zero (t !! k))
  = μ (default zero (s !! k)) + sum_of (share μ k) xs.
Proof.
  intros Hzero Hplus. revert s.
  induction xs as [|x xs IH]; intros s Hrun; cbn [fold_effects] in Hrun.
  - injection Hrun as <-. unfold sum_of. simpl. lia.
  - unfold effect_of, share, sum_of in *. cbn [foldr].
    destruct (contrib x) as [[[k' δ]|]|]; cbn [rbind] in Hrun; [| |done].
    + rewrite (IH _ Hrun), lookup_bump.
      case_decide as Hk; [subst k'|]; simpl; [rewrite Hplus|]; lia.
    + rewrite (IH _ Hrun). simpl. lia.
Qed.

Lemma keyed_keys k xs s t :
  fold_effects effect_of xs s = Ok t →
  is_Some (t !! k)
  ↔ is_Some (s !! k) ∨ ∃ x δ, x ∈ xs ∧ contrib x = Ok (Some (k, δ)).
Proof.
  revert s.
  induction xs as [|x xs IH]; intros s Hrun; cbn [fold_effects] in Hrun.
  - injection Hrun as <-. split; [by left|].
    intros [?|(x & δ & Hx & _)]; [done | by apply elem_of_nil in Hx].
  - unfold effect_of in Hrun.
    destruct (contrib x) as [[[k' δ]|]|] eqn:Hx; cbn [rbind] in Hrun; [| |done].
    + rewrite (IH _ Hrun), lookup_bump. split.
      * intros [Hs | (x' & δ' & Hin & Hc)].
        -- case_decide as Hk; [subst k'; right | by left].
           exists x, δ. split; [by left | done].
        -- right. exists x', δ'. split; [by right | done].
      * intros [Hs | (x' & δ' & Hin & Hc)].
        -- left. by case_decide.
        -- apply elem_of_cons in Hin as [-> | Hin].
           ++ left. rewrite Hx in Hc. injection Hc as -> ->.
              by rewrite decide_True.
           ++ right. by exists x', δ'.
    + rewrite (IH _ Hrun). split.
      * intros [Hs | (x' & δ' & Hin & Hc)]; [by left|].
        right. exists x', δ'. split; [by right | done].
      * intros [Hs | (x' & δ' & Hin & Hc)]; [by left|].
        apply elem_of_cons in Hin as [-> | Hin]; [congruence|].
        right. by exists x', δ'.
Qed.

Lemma bump_merge k δ a b :
  (∀ u v w, plus (plus u v) w = plus u (plus v w)) →
  (∀ u, plus zero u = u) →
  bump plus zero k δ (merge a b) = merge a (bump plus zero k δ b).
Proof.
  intros Hassoc Hid. apply map_eq. intros j. unfold merge.
  rewrite lookup_bump, !lookup_union_with, lookup_bump.
  case_decide as Hk; [subst j|done].
  destruct (a !! k) as [u|], (b !! k) as [v|]; simpl;
    by rewrite ?Hassoc, ?Hid.
Qed.

Lemma keyed_merge xs s u t :
  (∀ u v w, plus (plus u v) w = plus u (plus v w)) →
  (∀ u, plus zero u = u) →
  fold_effects effect_of xs u = Ok t →
  fold_effects effect_of xs (merge s u) = Ok (merge s t).
Proof.
  intros Hassoc Hid. revert u.
  induction xs as [|x xs IH]; intros u Hrun; cbn [fold_effects] in *.
  - by injection Hrun as <-.
  - unfold effect_of in *.
    destruct (contrib x) as [[[k δ]|]|]; cbn [rbind] in *; [| |done].
    + rewrite bump_merge by done. by apply IH.
    + by apply IH.
Qed.

Lemma merge_empty_r (s : gmap K V) : merge s ∅ = s.
Proof.
  apply map_eq. intros j. unfold merge.
  rewrite lookup_union_with, lookup_empty. by destruct (s !! j).
Qed.

(** Whether a run raises does not depend on the table it starts from. *)
Lemma keyed_raise xs s s' e :
  fold_effects effect_of xs s = Raise e →
  fold_effects effect_of xs s' = Raise e.
Proof.
  revert s s'. induction xs as [|x xs IH]; intros s s'; cbn [fold_effects].
  - done.
  - destruct (effect_of x); [apply IH | done].
Qed.

(** Two batches: the table of the whole is the merge of the tables of
    the parts, and the whole raises as soon as a part does. *)
Lemma keyed_batches xs ys :
  (∀ u v w, plus (plus u v) w = plus u (plus v w)) →
  (∀ u, plus zero u = u) →
  fold_effects effect_of (xs ++ ys) ∅
  = match fold_effects effect_of xs ∅, fold_effects effect_of ys ∅ with
    | Ok a, Ok b => Ok (merge a b)
    | Ok _, Raise e => Raise e
    | Raise e, _ => Raise e
    end.
Proof.
  intros Hassoc Hid. rewrite fold_effects_app.
  destruct (fold_effects effect_of xs ∅) as [a|e]; cbn [rbind]; [|done].
  destruct (fold_effects effect_of ys ∅) as [b|e] eqn:Hys.
  - rewrite <- (merge_empty_r a) at 1. by apply keyed_merge.
  - by apply keyed_raise with ∅.
Qed.

End keyed.

Lemma fold_effects_ext {S X} (eff eff' : X → result (S → S)) xs s :
  (∀ x, eff x = eff' x) →
  fold_effects eff xs s = fold_effects eff' xs s.
Proof.
  intros Hext. revert s. induction xs as [|x xs IH]; intros s; [done|].
  cbn [fold_effects]. rewrite <- Hext. destruct (eff x); [apply IH | done].
Qed.

Lemma sum_of_count {X} (p : X → bool) (xs : list X) :
  sum_of (λ x, if p x then 1 else 0) xs = count_if p xs.
Proof. apply count_if_foldr. Qed.

Lemma sum_of_ext {X} (f g : X → Z) (xs : list X) :
  Forall (λ x, f x = g x) xs → sum_of f xs = sum_of g xs.
Proof.
  unfold sum_of. induction 1 as [|x xs Hx _ IH]; simpl; [done|].
  by rewrite Hx, IH.
Qed.

Lemma count_if_pos {X} (p : X → bool) (xs : list X) :
  1 ≤ count_if p xs ↔ ∃ x, x ∈ xs ∧ p x = true.
Proof.
  unfold count_if. induction xs as [|x xs IH]; simpl.
  - split; [lia | by intros (? & []%elem_of_nil & _)].
  - destruct (p x) eqn:Hx; simpl length.
    + split; [|lia]. intros _. exists x. split; [by left | done].
    + rewrite IH. split.
      * intros (x' & Hin & Hx'). exists x'. split; [by right | done].
      * intros (x' & Hin & Hx'). apply elem_of_cons in Hin as [-> | Hin];
          [congruence | by exists x'].
Qed.

Section per_key.
Context `{Runtime}.

(** ** The video table, year by year *)

Definition video_contrib (item : json)
  : result (option (Z * Statistics.video_entry)) :=
  rbind (video_contribution item) (λ yδ, Ok (Some yδ)).

Lemma video_effect_keyed item :
  video_effect item
  = effect_of video_plus Statistics.zero_entry video_contrib item.
Proof.
  unfold video_effect, effect_of, video_contrib.
  by destruct (video_contribution item) as [[y δ]|].
Qed.

Lemma process_data_keyed data :
  Statistics.process_data data
  = fold_effects (effect_of video_plus Statistics.zero_entry video_contrib)
      data ∅.
Proof.
  rewrite process_data_fold. apply fold_effects_ext, video_effect_keyed.
Qed.

(** Whether a record falls in the year [y]. *)
Definition in_year (y : Z) (item : json) : bool :=
  match video_year item with
  | Ok y' => bool_decide (y' = y)
  | Raise _ => false
  end.

(** [int] of the field [key] of a record of the year [y]; 0 for the
    records of other years. *)
Definition year_field (key : string) (y : Z) (item : json) : Z :=
  match item with
  | JDict d =>
    match engagement d key with
    | Ok v => if in_year y item then v else 0
    | Raise _ => 0
    end
  | _ => 0
  end.

Lemma video_shares item y :
  is_Ok (video_contrib item) = true →
  share video_contrib Statistics.post_count y item
  = (if in_year y item then 1 else 0)
  ∧ share video_contrib Statistics.total_likes y item
    = year_field "liked_count" y item
  ∧ share video_contrib Statistics.total_collections y item
    = year_field "collected_count" y item
  ∧ share video_contrib Statistics.total_comments y item
    = year_field "comment_count" y item
  ∧ share video_contrib Statistics.total_shares y item
    = year_field "share_count" y item.
Proof.
  unfold share, video_contrib, video_contribution, year_field, in_year.
  destruct item as [| | | | | |d]; try done.
  destruct (video_year (JDict d)) as [y'|]; cbn [rbind]; [|done].
  destruct (engagement d "liked_count") as [l|]; cbn [rbind]; [|done].
  destruct (engagement d "collected_count") as [c|]; cbn [rbind]; [|done].
  destruct (engagement d "comment_count") as [m|]; cbn [rbind]; [|done].
  destruct (engagement d "share_count") as [s|]; cbn [rbind]; [|done].
  intros _. cbn [Statistics.post_count Statistics.total_likes
                 Statistics.total_collections Statistics.total_comments
                 Statistics.total_shares].
  destruct (decide (y' = y)) as [Hy|Hy].
  - by rewrite bool_decide_eq_true_2.
  - by rewrite bool_decide_eq_false_2.
Qed.

Lemma keyed_run_Ok {K V X} `{Countable K} (plus : V → V → V) (zero : V)
    (contrib : X → result (option (K * V))) xs (s t : gmap K V) :
  fold_effects (effect_of plus zero contrib) xs s = Ok t →
  Forall (λ x, is_Ok (contrib x) = true) xs.
Proof.
  intros Hrun.
  assert (Hok : is_Ok (fold_effects (effect_of plus zero contrib) xs s) = true)
    by (by rewrite Hrun).
  apply fold_effects_Ok_iff in Hok. eapply Forall_impl; [exact Hok|].
  intros x. unfold effect_of. by destruct (contrib x).
Qed.

(** The entry of a year holds the number of the records of that year
    and, field by field, the sum of their engagement numbers; a year is
    a key exactly when a record falls in it. *)
Theorem process_data_per_year data t y :
  Statistics.process_data data = Ok t →
  let e := default Statistics.zero_entry (t !! y) in
  Statistics.post_count e = count_if (in_year y) data
  ∧ Statistics.total_likes e = sum_of (year_field "liked_count" y) data
  ∧ Statistics.total_collections e
    = sum_of (year_field "collected_count" y) data
  ∧ Statistics.total_comments e = sum_of (year_field "comment_count" y) data
  ∧ Statistics.total_shares e = sum_of (year_field "share_count" y) data
  ∧ (is_Some (t !! y) ↔ 1 ≤ count_if (in_year y) data).
Proof.
  intros Hrun e. rewrite process_data_keyed in Hrun.
  pose proof (keyed_run_Ok _ _ _ _ _ _ Hrun) as Hall.
  assert (Hsum : ∀ μ : Statistics.video_entry → Z,
            μ Statistics.zero_entry = 0 →
            (∀ a b, μ (video_plus a b) = μ a + μ b) →
            μ e = sum_of (share video_contrib μ y) data).
  { intros μ H0 Hadd. unfold e.
    rewrite (keyed_sum video_plus Statistics.zero_entry video_contrib
               μ y data ∅ t H0 Hadd Hrun).
    rewrite lookup_empty. simpl. lia. }
  assert (Hposts : Statistics.post_count e = count_if (in_year y) data).
  { rewrite Hsum by done. rewrite <- sum_of_count. apply sum_of_ext.
    eapply Forall_impl; [exact Hall|]. intros item Hitem.
    by destruct (video_shares item y Hitem) as (-> & _). }
  split_and!; try done.
  - rewrite Hsum by done. apply sum_of_ext.
    eapply Forall_impl; [exact Hall|]. intros item Hitem.
    by destruct (video_shares item y Hitem) as (_ & -> & _).
  - rewrite Hsum by done. apply sum_of_ext.
    eapply Forall_impl; [exact Hall|]. intros item Hitem.
    by destruct (video_shares item y Hitem) as (_ & _ & -> & _).
  - rewrite Hsum by done. apply sum_of_ext.
    eapply Forall_impl; [exact Hall|]. intros item Hitem.
    by destruct (video_shares item y Hitem) as (_ & _ & _ & -> & _).
  - rewrite Hsum by done. apply sum_of_ext.
    eapply Forall_impl; [exact Hall|]. intros item Hitem.
    by destruct (video_shares item y Hitem) as (_ & _ & _ & _ & ->).
  - rewrite <- Hposts. split.
    + intros [e' He']. unfold e. rewrite He'. simpl.
      eapply video_posts_positive; [|exact He'].
      by rewrite process_data_keyed.
    + unfold e. destruct (t !! y); [done | simpl; lia].
Qed.

(** ** The microblog tables, year by year *)

Definition line_in_year (y : Z) (l : line) : bool :=
  bool_decide (weibo_year l = Some y).

(** The reads a line of the year [y] adds. *)
Definition year_reads (y : Z) (l : line) : Z :=
  match l with
  | Decoded (JDict d) =>
    if line_in_year y l then spec_reads (assoc (utf8 "reads_count") d) else 0
  | _ => 0
  end.

Lemma weibo_effect_keyed l :
  weibo_effect l
  = effect_of weibo_plus StatisticsOnlyWeibo.zero_entry
      (λ l, Ok (weibo_contribution l)) l.
Proof. reflexivity. Qed.

Lemma weibo_shares l y :
  share (λ l, Ok (weibo_contribution l)) StatisticsOnlyWeibo.post_count y l
  = (if line_in_year y l then 1 else 0)
  ∧ share (λ l, Ok (weibo_contribution l)) StatisticsOnlyWeibo.reads_count y l
    = year_reads y l.
Proof.
  unfold share, weibo_contribution, year_reads, line_in_year.
  destruct l as [|[| | | | | |d]];
    try (rewrite bool_decide_eq_false_2 by done; done).
  destruct (weibo_year (Decoded (JDict d))) as [y'|];
    cbn [fmap option_fmap option_map].
  - cbn [StatisticsOnlyWeibo.post_count StatisticsOnlyWeibo.reads_count].
    rewrite reads_added_spec.
    destruct (decide (y' = y)) as [->|Hy].
    + by rewrite bool_decide_eq_true_2.
    + by rewrite bool_decide_eq_false_2 by congruence.
  - by rewrite bool_decide_eq_false_2.
Qed.

Lemma only_weibo_year_posts lines t y :
  fold_effects
    (effect_of weibo_plus StatisticsOnlyWeibo.zero_entry
       (λ l, Ok (weibo_contribution l))) lines ∅ = Ok t →
  posts_of t y = count_if (line_in_year y) lines
  ∧ (is_Some (t !! y) ↔ 1 ≤ count_if (line_in_year y) lines).
Proof.
  intros Ht. split.
  - unfold posts_of. rewrite <- sum_of_count.
    replace (default 0 (StatisticsOnlyWeibo.post_count <$> t !! y))
      with (StatisticsOnlyWeibo.post_count
              (default StatisticsOnlyWeibo.zero_entry (t !! y)))
      by (by destruct (t !! y)).
    rewrite (keyed_sum weibo_plus StatisticsOnlyWeibo.zero_entry _
               StatisticsOnlyWeibo.post_count y lines ∅ t eq_refl
               (λ a b, eq_refl) Ht).
    rewrite lookup_empty. cbn [default from_option StatisticsOnlyWeibo.zero_entry
                                StatisticsOnlyWeibo.post_count].
    rewrite Z.add_0_l. apply sum_of_ext, Forall_forall.
    intros l _. apply weibo_shares.
  - rewrite (keyed_keys weibo_plus StatisticsOnlyWeibo.zero_entry _
               y lines ∅ t Ht), lookup_empty, count_if_pos.
    split.
    + intros [[? ?]|(l & δ & Hin & Hl)]; [done|].
      exists l. split; [done|]. apply bool_decide_eq_true.
      injection Hl as Hl. unfold weibo_contribution in Hl.
      destruct l as [|[| | | | | |d]]; try done.
      destruct (weibo_year (Decoded (JDict d))) as [y'|]; [|done].
      simpl in Hl. by injection Hl as -> _.
    + intros (l & Hin & Hl). right. apply bool_decide_eq_true in Hl.
      unfold weibo_contribution.
      destruct l as [|[| | | | | |d]]; try done.
      exists (Decoded (JDict d)). rewrite Hl. eexists. by split.
Qed.


End per_key.

(** A table of counts: every record adds 1 under its key, if it has
    one. *)
Lemma counter_counts `{Countable K} {X} (contrib : X → result (option (K * Z)))
    (key_of : X → option K) (xs : list X) (t : gmap K Z) (k : K) :
  (∀ x, is_Ok (contrib x) = true →
        contrib x = Ok ((λ k, (k, 1)) <$> key_of x)) →
  fold_effects (effect_of Z.add 0 contrib) xs ∅ = Ok t →
  default 0 (t !! k) = count_if (λ x, bool_decide (key_of x = Some k)) xs
  ∧ (is_Some (t !! k)
     ↔ 1 ≤ count_if (λ x, bool_decide (key_of x = Some k)) xs).
Proof.
  intros Hkey Hrun. pose proof (keyed_run_Ok _ _ _ _ _ _ Hrun) as Hall.
  split.
  - pose proof (keyed_sum Z.add 0 contrib (λ v, v) k xs ∅ t eq_refl
                  (λ a b, eq_refl) Hrun) as Hsum.
    cbv beta in Hsum. rewrite Hsum, lookup_empty. cbn [from_option id].
    rewrite Z.add_0_l, <- sum_of_count. apply sum_of_ext.
    eapply Forall_impl; [exact Hall|]. intros x Hx. unfold share.
    rewrite (Hkey x Hx).
    destruct (key_of x) as [k'|]; cbn [fmap option_fmap option_map].
    + destruct (decide (k' = k)) as [->|Hk].
      * by rewrite bool_decide_eq_true_2.
      * by rewrite bool_decide_eq_false_2 by congruence.
    + by rewrite bool_decide_eq_false_2.
  - rewrite (keyed_keys Z.add 0 contrib k xs ∅ t Hrun), lookup_empty,
      count_if_pos.
    split.
    + intros [[? ?]|(x & δ & Hin & Hx)]; [done|].
      exists x. split; [done|]. apply bool_decide_eq_true.
      rewrite Hkey in Hx by (by rewrite Hx).
      destruct (key_of x); [|done]. simpl in Hx. by injection Hx as -> _.
    + intros (x & Hin & Hx). right. apply bool_decide_eq_true in Hx.
      exists x, 1. split; [done|].
      rewrite Forall_forall in Hall. rewrite (Hkey x (Hall x Hin)).
      by rewrite Hx.
Qed.

Section counters.
Context `{Runtime}.

Definition basic_contrib (l : line) : result (option (Z * Z)) :=
  match l with
  | Malformed => Ok None
  | Decoded (JDict d) =>
    let date_str := default (JStr []) (assoc (utf8 "created_at") d) in
    if truthy date_str
    then rbind (strptime_year date_str) (λ y, Ok (Some (y, 1)))
    else Ok None
  | Decoded _ => Raise AttributeError
  end.

Lemma basic_effect_keyed l :
  basic_effect l = effect_of Z.add 0 basic_contrib l.
Proof.
  unfold basic_effect, effect_of, basic_contrib.
  destruct l as [|[| | | | | |d]]; try done.
  cbv zeta. destruct (truthy _); [|done]. by destruct (strptime_year _).
Qed.

Lemma basic_contrib_year l :
  is_Ok (basic_contrib l) = true →
  basic_contrib l = Ok ((λ y, (y, 1)) <$> weibo_year l).
Proof.
  unfold basic_contrib, weibo_year.
  destruct l as [|[| | | | | |d]]; try done.
  cbv zeta. destruct (truthy _); [|done]. by destruct (strptime_year _).
Qed.

(** When the basic pass returns, the count of a year is the number of
    the lines of that year, and a year is a key exactly when a line
    falls in it. *)
Theorem basic_weibo_per_year lines t y :
  Statistics.process_weibo_jsonl lines = Ok t →
  default 0 (t !! y) = count_if (line_in_year y) lines
  ∧ (is_Some (t !! y) ↔ 1 ≤ count_if (line_in_year y) lines).
Proof.
  intros Hrun. rewrite basic_fold in Hrun.
  rewrite (fold_effects_ext _ _ _ _ basic_effect_keyed) in Hrun.
  exact (counter_counts basic_contrib weibo_year lines t y
           basic_contrib_year Hrun).
Qed.

End counters.

(** ** The region counter, name by name *)

Definition ip_contrib (l : line) : result (option (str * Z)) :=
  match l with
  | Malformed => Ok None
  | Decoded (JDict d) => Ok ((λ name, (name, 1)) <$> region_of l)
  | Decoded _ => Raise AttributeError
  end.

Lemma ip_effect_keyed l : ip_effect l = effect_of Z.add 0 ip_contrib l.
Proof.
  unfold ip_effect, effect_of, ip_contrib.
  destruct l as [|[| | | | | |d]]; try done.
  by destruct (region_of (Decoded (JDict d))).
Qed.

Lemma ip_contrib_region l :
  is_Ok (ip_contrib l) = true →
  ip_contrib l = Ok ((λ name, (name, 1)) <$> region_of l).
Proof. unfold ip_contrib. by destruct l as [|[| | | | | |d]]. Qed.

Definition in_region (name : str) (l : line) : bool :=
  bool_decide (region_of l = Some name).

Lemma ip_counter_keyed lines :
  Statistics.ip_counter lines
  = fold_effects (effect_of Z.add 0 ip_contrib) lines ∅.
Proof.
  rewrite ip_counter_fold. apply fold_effects_ext, ip_effect_keyed.
Qed.

(** When the location loop returns, the count of a display name is the
    number of the lines located there, and a name is a key exactly when
    a line is located there. *)
Theorem ip_counter_per_region lines c name :
  Statistics.ip_counter lines = Ok c →
  default 0 (c !! name) = count_if (in_region name) lines
  ∧ (is_Some (c !! name) ↔ 1 ≤ count_if (in_region name) lines).
Proof.
  intros Hrun. rewrite ip_counter_keyed in Hrun.
  exact (counter_counts ip_contrib region_of lines c name
           ip_contrib_region Hrun).
Qed.

Lemma ip_counter_key_iff lines c name :
  Statistics.ip_counter lines = Ok c →
  is_Some (c !! name) ↔ ∃ l, l ∈ lines ∧ region_of l = Some name.
Proof.
  intros Hrun. rewrite ip_counter_keyed in Hrun.
  rewrite (proj2 (counter_counts ip_contrib region_of lines c name
                    ip_contrib_region Hrun)), count_if_pos.
  split; intros (l & Hin & Hl); exists l; (split; [done|]).
  - by apply bool_decide_eq_true in Hl.
  - by apply bool_decide_eq_true.
Qed.

Lemma ip_counter_empty_iff lines c :
  Statistics.ip_counter lines = Ok c →
  c = ∅ ↔ ∀ l, l ∈ lines → region_of l = None.
Proof.
  intros Hrun. split.
  - intros -> l Hin. destruct (region_of l) as [name|] eqn:Hl; [|done].
    destruct (proj2 (ip_counter_key_iff lines ∅ name Hrun)) as [? Hn];
      [by exists l | by rewrite lookup_empty in Hn].
  - intros Hnone. apply map_eq. intros name. rewrite lookup_empty.
    apply eq_None_not_Some. intros Hsome.
    apply (ip_counter_key_iff lines c name Hrun) in Hsome as (l & Hin & Hl).
    rewrite (Hnone l Hin) in Hl. done.
Qed.

(** The map is rendered exactly when some line is located in a
    recognised region; otherwise the function returns after the notice,
    with nothing rendered. *)
Theorem map_rendered_iff_region lines c :
  Statistics.ip_counter lines = Ok c →
  (Statistics.extract_ip_locations_and_plot_map lines = Ok None
   ↔ ∀ l, l ∈ lines → region_of l = None)
  ∧ (Statistics.extract_ip_locations_and_plot_map lines = Ok (Some c)
     ↔ ∃ l, l ∈ lines ∧ is_Some (region_of l)).
Proof.
  intros Hrun. pose proof (ip_counter_empty_iff lines c Hrun) as Hempty.
  unfold Statistics.extract_ip_locations_and_plot_map.
  rewrite Hrun. cbn [rbind]. split.
  - rewrite <- Hempty. case_bool_decide; split; done.
  - case_bool_decide as Hc.
    + split; [done|]. intros (l & Hin & Hl).
      rewrite (proj1 Hempty Hc l Hin) in Hl. by destruct Hl.
    + split; [|done]. intros _.
      apply map_choose in Hc as (name & n & Hname).
      destruct (proj1 (ip_counter_key_iff lines c name Hrun)
                  (mk_is_Some _ _ Hname)) as (l & Hin & Hl).
      exists l. split; [done|]. by rewrite Hl.
Qed.

(** ** Batches *)

Lemma video_plus_assoc a b c :
  video_plus (video_plus a b) c = video_plus a (video_plus b c).
Proof. unfold video_plus. simpl. f_equal; lia. Qed.

Lemma video_plus_zero a : video_plus Statistics.zero_entry a = a.
Proof. destruct a. unfold video_plus. simpl. reflexivity. Qed.

Lemma weibo_plus_assoc a b c :
  weibo_plus (weibo_plus a b) c = weibo_plus a (weibo_plus b c).
Proof. unfold weibo_plus. simpl. f_equal; lia. Qed.

Lemma weibo_plus_zero a : weibo_plus StatisticsOnlyWeibo.zero_entry a = a.
Proof. destruct a. unfold weibo_plus. simpl. reflexivity. Qed.

Section batches.
Context `{Runtime}.

Lemma basic_keyed lines :
  Statistics.process_weibo_jsonl lines
  = fold_effects (effect_of Z.add 0 basic_contrib) lines ∅.
Proof. rewrite basic_fold. apply fold_effects_ext, basic_effect_keyed. Qed.

Lemma only_weibo_keyed lines :
  StatisticsOnlyWeibo.process_weibo_jsonl lines
  = fold_effects
      (effect_of weibo_plus StatisticsOnlyWeibo.zero_entry
         (λ l, Ok (weibo_contribution l))) lines ∅.
Proof. rewrite only_weibo_fold. apply fold_effects_ext, weibo_effect_keyed. Qed.

(** The video table of two batches in a row is the entry-wise sum of
    the tables of the batches; the pass on the whole raises when the
    pass on a batch does, with the exception of the first such batch. *)
Theorem process_data_batches xs ys :
  Statistics.process_data (xs ++ ys)
  = match Statistics.process_data xs, Statistics.process_data ys with
    | Ok a, Ok b => Ok (merge video_plus a b)
    | Ok _, Raise e => Raise e
    | Raise e, _ => Raise e
    end.
Proof.
  rewrite !process_data_keyed.
  apply keyed_batches; [apply video_plus_assoc | apply video_plus_zero].
Qed.

(** The same for the two microblog passes. *)
Theorem process_weibo_jsonl_batches xs ys :
  Statistics.process_weibo_jsonl (xs ++ ys)
  = match Statistics.process_weibo_jsonl xs,
          Statistics.process_weibo_jsonl ys with
    | Ok a, Ok b => Ok (merge Z.add a b)
    | Ok _, Raise e => Raise e
    | Raise e, _ => Raise e
    end
  ∧ StatisticsOnlyWeibo.process_weibo_jsonl (xs ++ ys)
    = match StatisticsOnlyWeibo.process_weibo_jsonl xs,
            StatisticsOnlyWeibo.process_weibo_jsonl ys with
      | Ok a, Ok b => Ok (merge weibo_plus a b)
      | Ok _, Raise e => Raise e
      | Raise e, _ => Raise e
      end.
Proof.
  split.
  - rewrite !basic_keyed. apply keyed_batches; intros; lia.
  - rewrite !only_weibo_keyed.
    apply keyed_batches; [apply weibo_plus_assoc | apply weibo_plus_zero].
Qed.

End batches.

(** The region counter of two batches is the sum of their counters. *)
Theorem ip_counter_batches xs ys :
  Statistics.ip_counter (xs ++ ys)
  = match Statistics.ip_counter xs, Statistics.ip_counter ys with
    | Ok a, Ok b => Ok (merge Z.add a b)
    | Ok _, Raise e => Raise e
    | Raise e, _ => Raise e
    end.
Proof. rewrite !ip_counter_keyed. apply keyed_batches; intros; lia. Qed.

(** ** The CSV files

    The rows of every writer are a header and, for the sorted keys, a
    row made of the key and its entry. *)

Section csv.
Context {V R : Type} (row : Z → V → R).

Definition body (stats : gmap Z V) : list R :=
  omap (λ year, row year <$> stats !! year) (Statistics.sorted_keys stats).

Lemma elem_of_body stats r :
  r ∈ body stats ↔ ∃ y e, stats !! y = Some e ∧ r = row y e.
Proof.
  unfold body. rewrite list_elem_of_omap. split.
  - intros (y & _ & Hy). destruct (stats !! y) as [e|] eqn:He; [|done].
    exists y, e. split; [done|]. simpl in Hy. by injection Hy as <-.
  - intros (y & e & He & ->). exists y. split.
    + apply sorted_keys_spec. by rewrite He.
    + by rewrite He.
Qed.

Lemma body_length stats : length (body stats) = size stats.
Proof.
  unfold body.
  rewrite <- (Forall2_length _ _ _
                (omap_rows stats row (Statistics.sorted_keys stats)
                   (λ y, proj1 (proj2 (sorted_keys_spec stats) y)))).
  unfold Statistics.sorted_keys.
  rewrite merge_sort_Permutation. by rewrite <- size_dom.
Qed.

Lemma body_inj a b :
  (∀ y e y' e', row y e = row y' e' → y = y' ∧ e = e') →
  body a = body b → a = b.
Proof.
  intros Hinj Hrows.
  assert (Hsub : ∀ (a b : gmap Z V), body a = body b →
            ∀ y e, a !! y = Some e → b !! y = Some e).
  { intros a' b' Heq y e Hy.
    assert (Hin : row y e ∈ body b')
      by (rewrite <- Heq; apply elem_of_body; by exists y, e).
    apply elem_of_body in Hin as (y' & e' & Hy' & Hrow).
    by destruct (Hinj _ _ _ _ Hrow) as [-> ->]. }
  apply map_eq. intros y.
  destruct (a !! y) as [e|] eqn:Ha.
  - symmetry. by apply (Hsub a b).
  - destruct (b !! y) as [e|] eqn:Hb; [|done].
    apply (Hsub b a) in Hb; [congruence | done].
Qed.

End csv.

(** The video CSV has one row per year after the header, and loses
    nothing: two tables with the same CSV are the same table. *)
Theorem save_to_csv_injective a b :
  Statistics.save_to_csv a = Statistics.save_to_csv b →
  a = b ∧ length (Statistics.save_to_csv a) = S (size a).
Proof.
  unfold Statistics.save_to_csv. intros [= Hrows]. split.
  - apply (body_inj Statistics.csv_row); [|exact Hrows].
    intros y [] y' []. unfold Statistics.csv_row. simpl.
    by intros [= -> -> -> -> -> ->].
  - cbn [length]. f_equal. apply (body_length Statistics.csv_row).
Qed.

(** The CSV of the basic microblog table: the header [Year, Post Count],
    then one row [year, count] per year, the years strictly ascending;
    two tables with the same CSV are the same table. *)
Theorem save_weibo_csv_rows :
  (∀ stats, ∃ years rows,
     Statistics.save_weibo_csv stats
     = [Statistics.CStr (utf8 "Year"); Statistics.CStr (utf8 "Post Count")]
       :: rows
     ∧ StronglySorted Z.lt years
     ∧ (∀ y, y ∈ years ↔ is_Some (stats !! y))
     ∧ Forall2 (λ y r, ∃ n, stats !! y = Some n
                            ∧ r = [Statistics.CInt y; Statistics.CInt n])
         years rows)
  ∧ (∀ a b, Statistics.save_weibo_csv a = Statistics.save_weibo_csv b →
            a = b).
Proof.
  split.
  - intros stats. destruct (sorted_keys_spec stats) as [Hsorted Hkeys].
    eexists _, _. split; [reflexivity|]. split; [exact Hsorted|].
    split; [exact Hkeys|].
    apply (omap_rows stats (λ y n, [Statistics.CInt y; Statistics.CInt n])).
    intros y. apply Hkeys.
  - unfold Statistics.save_weibo_csv. intros a b [= Hrows].
    apply (body_inj (λ y n, [Statistics.CInt y; Statistics.CInt n]));
      [|exact Hrows].
    by intros y e y' e' [= -> ->].
Qed.

(** The CSV of the extended microblog table: the header [Year, Post
    Count, Reads Count], then one row [year, posts, reads] per year, the
    years strictly ascending; two tables with the same CSV are the same
    table. *)
Theorem only_weibo_save_weibo_csv_rows :
  (∀ stats, ∃ years rows,
     StatisticsOnlyWeibo.save_weibo_csv stats
     = [Statistics.CStr (utf8 "Year"); Statistics.CStr (utf8 "Post Count");
        Statistics.CStr (utf8 "Reads Count")] :: rows
     ∧ StronglySorted Z.lt years
     ∧ (∀ y, y ∈ years ↔ is_Some (stats !! y))
     ∧ Forall2 (λ y r, ∃ e,
          stats !! y = Some e
          ∧ r = [Statistics.CInt y;
                 Statistics.CInt (StatisticsOnlyWeibo.post_count e);
                 Statistics.CInt (StatisticsOnlyWeibo.reads_count e)])
         years rows)
  ∧ (∀ a b, StatisticsOnlyWeibo.save_weibo_csv a
            = StatisticsOnlyWeibo.save_weibo_csv b → a = b).
Proof.
  split.
  - intros stats. destruct (sorted_keys_spec stats) as [Hsorted Hkeys].
    eexists _, _. split; [reflexivity|]. split; [exact Hsorted|].
    split; [exact Hkeys|].
    apply (omap_rows stats
             (λ y e, [Statistics.CInt y;
                      Statistics.CInt (StatisticsOnlyWeibo.post_count e);
                      Statistics.CInt (StatisticsOnlyWeibo.reads_count e)])).
    intros y. apply Hkeys.
  - unfold StatisticsOnlyWeibo.save_weibo_csv. intros a b [= Hrows].
    apply (body_inj
             (λ y e, [Statistics.CInt y;
                      Statistics.CInt (StatisticsOnlyWeibo.post_count e);
                      Statistics.CInt (StatisticsOnlyWeibo.reads_count e)]));
      [|exact Hrows].
    intros y [] y' []. simpl. by intros [= -> -> ->].
Qed.

(** ** Lines that are no record *)

Section odd_lines.
Context `{Runtime}.



End odd_lines.

(** ** The two microblog passes on one file *)

Section variants.
Context `{Runtime}.

(** Whenever the pass of [statistics.py] returns, the pass of
    [statistics_only_weibo.py] has the same years with the same post
    counts.  The extended pass returns on more files: it passes over the
    lines on which the basic pass raises. *)
Theorem weibo_variants_agree lines t :
  Statistics.process_weibo_jsonl lines = Ok t →
  ∃ t', StatisticsOnlyWeibo.process_weibo_jsonl lines = Ok t'
        ∧ StatisticsOnlyWeibo.post_count <$> t' = t.
Proof.
  intros Hrun. destruct (only_weibo_returns lines) as [t' Ht'].
  exists t'. split; [done|].
  rewrite basic_keyed in Hrun. rewrite only_weibo_keyed in Ht'.
  apply map_eq. intros y. rewrite lookup_fmap.
  destruct (counter_counts basic_contrib weibo_year lines t y
              basic_contrib_year Hrun) as [Hn Hk].
  destruct (only_weibo_year_posts lines t' y Ht') as [Hn' Hk'].
  unfold posts_of, line_in_year in *.
  destruct (t' !! y) as [e|], (t !! y) as [n|];
    cbn [fmap option_fmap option_map default from_option id] in *.
  - f_equal. lia.
  - destruct (proj2 Hk (proj1 Hk' (mk_is_Some _ _ eq_refl))) as [? [=]].
  - destruct (proj2 Hk' (proj1 Hk (mk_is_Some _ _ eq_refl))) as [? [=]].
  - done.
Qed.

End variants.

(** ** The path of the rendered map

    [output_html = output_pdf.replace('.pdf', '.html')]: the chart is
    rendered to [output_html], which is then converted to [output_pdf]. *)

(** [old in s]. *)
Fixpoint contains (old s : str) : bool :=
  starts_with old s
  || match s with
     | [] => false
     | _ :: s' => contains old s'
     end.

(** The scan of [str.replace] for a non-empty [old]: left to right, an
    occurrence is replaced where it starts and its remaining [skip]
    characters are dropped, so that occurrences do not overlap. *)
Fixpoint replace_from (old new s : str) (skip : nat) : str :=
  match s with
  | [] => []
  | c :: s' =>
    match skip with
    | S k => replace_from old new s' k
    | O =>
      if starts_with old s
      then new ++ replace_from old new s' (length old - 1)
      else c :: replace_from old new s' 0
    end
  end.

(** [s.replace(old, new)]; an empty [old] matches before every
    character and at the end. *)
Definition replace (old new s : str) : str :=
  match old with
  | [] => new ++ flat_map (λ c, c :: new) s
  | _ :: _ => replace_from old new s 0
  end.

Definition output_html (output_pdf : str) : str :=
  replace (utf8 ".pdf") (utf8 ".html") output_pdf.

Section replace.
Context (old new : str).

Lemma replace_from_absent s :
  contains old s = false → replace_from old new s 0 = s.
Proof.
  induction s as [|c s IH]; [done|]. cbn [contains replace_from].
  intros [Hhere Hlater]%orb_false_iff. rewrite Hhere. f_equal. by apply IH.
Qed.


Lemma replace_from_length s k :
  (length old ≤ length new)%nat → old ≠ [] →
  (length s - k ≤ length (replace_from old new s k))%nat.
Proof.
  intros Hlen Hold. assert (1 ≤ length old)%nat by (destruct old; simpl; [done|lia]).
  revert k. induction s as [|c s IH]; intros k; [simpl; lia|].
  cbn [replace_from]. destruct k as [|k].
  - destruct (starts_with old (c :: s)).
    + rewrite length_app. specialize (IH (length old - 1)%nat).
      cbn [length]. lia.
    + specialize (IH 0%nat). cbn [length]. lia.
  - specialize (IH k). cbn [length]. lia.
Qed.

Lemma replace_from_grows s k :
  (length old < length new)%nat → old ≠ [] →
  contains old (drop k s) = true →
  (length s - k < length (replace_from old new s k))%nat.
Proof.
  intros Hlen Hold. assert (1 ≤ length old)%nat by (destruct old; simpl; [done|lia]).
  revert k. induction s as [|c s IH]; intros k.
  - rewrite drop_nil. simpl. destruct old; [done|]. simpl. done.
  - cbn [replace_from]. destruct k as [|k].
    + rewrite drop_0. cbn [contains].
      destruct (starts_with old (c :: s)).
      * intros _. rewrite length_app.
        pose proof (replace_from_length s (length old - 1) ltac:(lia) Hold)
          as Hle.
        cbn [length]. lia.
      * cbn [orb]. intros Hs. specialize (IH 0%nat). rewrite drop_0 in IH.
        specialize (IH Hs). cbn [length]. lia.
    + cbn [drop]. intros Hs. specialize (IH k Hs). cbn [length]. lia.
Qed.

Lemma starts_with_app p s t :
  (length p ≤ length s)%nat → starts_with p (s ++ t) = starts_with p s.
Proof.
  revert s. induction p as [|a p IH]; intros s Hlen; [done|].
  destruct s as [|b s]; cbn [length] in Hlen; [lia|].
  cbn [app starts_with]. rewrite IH by lia. done.
Qed.

End replace.

Lemma replace_from_stem old new stem rest :
  old ≠ [] →
  contains old (stem ++ removelast old) = false →
  replace_from old new (stem ++ old ++ rest) 0
  = stem ++ replace_from old new (old ++ rest) 0.
Proof.
  intros Hold. destruct (exists_last Hold) as (body & z & ->).
  rewrite removelast_last.
  induction stem as [|c stem IH]; [intros _; reflexivity|].
  cbn [app contains replace_from].
  intros [Hhere Hlater]%orb_false_iff.
  assert (Hnot : starts_with (body ++ [z])
                   (c :: stem ++ (body ++ [z]) ++ rest) = false).
  { replace (c :: stem ++ (body ++ [z]) ++ rest)
      with ((c :: stem ++ body) ++ ([z] ++ rest))
      by (cbn [app]; by rewrite <- !app_assoc).
    rewrite starts_with_app; [exact Hhere|].
    cbn [length]. rewrite !length_app. cbn [length]. lia. }
  rewrite Hnot. f_equal. by apply IH.
Qed.

(** The HTML file has the path of the PDF exactly when the path holds
    no [.pdf]: the chart is then rendered onto the very path that the
    PDF is written to.  A path whose first [.pdf] comes after [stem]
    is rendered to [stem], [.html] and what the rest becomes; so
    [stem.pdf] gives [stem.html]. *)
Theorem output_html_path :
  (∀ output_pdf,
     output_html output_pdf = output_pdf
     ↔ contains (utf8 ".pdf") output_pdf = false)
  ∧ (∀ stem rest,
       contains (utf8 ".pdf") (stem ++ utf8 ".pd") = false →
       output_html (stem ++ utf8 ".pdf" ++ rest)
       = stem ++ utf8 ".html" ++ output_html rest)
  ∧ (∀ stem,
       contains (utf8 ".pdf") (stem ++ utf8 ".pd") = false →
       output_html (stem ++ utf8 ".pdf") = stem ++ utf8 ".html").
Proof.
  assert (Hstem : ∀ stem rest,
            contains (utf8 ".pdf") (stem ++ utf8 ".pd") = false →
            output_html (stem ++ utf8 ".pdf" ++ rest)
            = stem ++ utf8 ".html" ++ output_html rest).
  { intros stem rest Habsent. unfold output_html, replace.
    change (utf8 ".pdf") with [46; 112; 100; 102]%N in *.
    rewrite replace_from_stem; [|done|exact Habsent].
    reflexivity. }
  split_and!.
  - intros p. unfold output_html, replace.
    change (utf8 ".pdf") with [46; 112; 100; 102]%N.
    split.
    + intros Hsame.
      destruct (contains [46; 112; 100; 102]%N p) eqn:Hin; [|done].
      pose proof (replace_from_grows [46; 112; 100; 102]%N (utf8 ".html")
                    p 0) as Hgrow.
      rewrite drop_0, Hsame in Hgrow.
      specialize (Hgrow ltac:(vm_compute; lia) ltac:(done) Hin). lia.
    + apply replace_from_absent.
  - exact Hstem.
  - intros stem Habsent.
    rewrite <- (app_nil_r (utf8 ".pdf")), Hstem by done. reflexivity.
Qed.

(** ** The properties on small files *)

Section extras_concrete.
#[local] Existing Instance Utc.runtime.

Definition two_videos : list json := [JDict video_2019; JDict video_2025].

Lemma process_data_per_year_witness :
  ∃ t, Statistics.process_data two_videos = Ok t
       ∧ Statistics.post_count (default Statistics.zero_entry (t !! 2025)) = 1
       ∧ Statistics.total_likes (default Statistics.zero_entry (t !! 2025)) = 12
       ∧ Statistics.total_comments (default Statistics.zero_entry (t !! 2025))
         = 3
       ∧ is_Some (t !! 2025).
Proof.
  destruct (Statistics.process_data two_videos) as [t|] eqn:Hrun;
    [|vm_compute in Hrun; discriminate].
  exists t. split; [reflexivity|].
  pose proof (process_data_per_year two_videos t 2025 Hrun) as Hyear.
  cbv zeta in Hyear. destruct Hyear as (Hp & Hl & _ & Hc & _ & Hk).
  rewrite Hp, Hl, Hc. split_and!; [vm_compute; reflexivity..|].
  apply Hk. vm_compute. discriminate.
Defined.


Lemma basic_weibo_per_year_witness :
  ∃ t, Statistics.process_weibo_jsonl three_years_file = Ok t
       ∧ default 0 (t !! 2019) = 2
       ∧ is_Some (t !! 2021)
       ∧ ¬ is_Some (t !! 2020).
Proof.
  destruct (Statistics.process_weibo_jsonl three_years_file) as [t|] eqn:Hrun;
    [|vm_compute in Hrun; discriminate].
  exists t. split; [reflexivity|].
  destruct (basic_weibo_per_year three_years_file t 2019 Hrun) as (Hn & _).
  destruct (basic_weibo_per_year three_years_file t 2021 Hrun) as (_ & Hk).
  destruct (basic_weibo_per_year three_years_file t 2020 Hrun) as (_ & Hk').
  rewrite Hn, Hk, Hk'. split_and!.
  - vm_compute. reflexivity.
  - vm_compute. discriminate.
  - vm_compute. intros Hle. by apply Hle.
Defined.

Lemma ip_counter_per_region_witness :
  ∃ c, Statistics.ip_counter located_file = Ok c
       ∧ default 0 (c !! utf8 "北京市") = 2
       ∧ default 0 (c !! utf8 "河南") = 1
       ∧ ¬ is_Some (c !! utf8 "北京").
Proof.
  destruct (Statistics.ip_counter located_file) as [c|] eqn:Hrun;
    [|vm_compute in Hrun; discriminate].
  exists c. split; [reflexivity|].
  destruct (ip_counter_per_region located_file c (utf8 "北京市") Hrun)
    as (Hn & _).
  destruct (ip_counter_per_region located_file c (utf8 "河南") Hrun)
    as (Hn' & _).
  destruct (ip_counter_per_region located_file c (utf8 "北京") Hrun)
    as (_ & Hk).
  rewrite Hn, Hn', Hk. split_and!; [vm_compute; reflexivity..|].
  vm_compute. intros Hle. by apply Hle.
Defined.

Lemma map_rendered_iff_region_witness :
  (∃ c, Statistics.extract_ip_locations_and_plot_map located_file
        = Ok (Some c))
  ∧ Statistics.extract_ip_locations_and_plot_map
      [located "发布于 Mars"; Malformed; dated "2019-03-05 08:00:00"]
    = Ok None.
Proof.
  split.
  - destruct (Statistics.ip_counter located_file) as [c|] eqn:Hrun;
      [|vm_compute in Hrun; discriminate].
    exists c. apply (proj2 (map_rendered_iff_region located_file c Hrun)).
    exists (located "发布于 北京"). split.
    + unfold located_file. rewrite !elem_of_cons. do 4 right. by left.
    + vm_compute. by eexists.
  - apply (proj1 (map_rendered_iff_region
                    [located "发布于 Mars"; Malformed;
                     dated "2019-03-05 08:00:00"] ∅
                    ltac:(vm_compute; reflexivity))).
    intros l Hin. rewrite !elem_of_cons, elem_of_nil in Hin.
    destruct Hin as [-> | [-> | [-> | []]]]; vm_compute; reflexivity.
Defined.

Definition entry_2019 : Statistics.video_entry :=
  {| Statistics.post_count := 1; Statistics.total_likes := 7;
     Statistics.total_collections := 0; Statistics.total_comments := 0;
     Statistics.total_shares := 1 |}.

Definition entry_2025 : Statistics.video_entry :=
  {| Statistics.post_count := 1; Statistics.total_likes := 12;
     Statistics.total_collections := 0; Statistics.total_comments := 3;
     Statistics.total_shares := 0 |}.

Lemma save_to_csv_injective_witness :
  <[2019 := entry_2019]> (<[2025 := entry_2025]> ∅)
  = <[2025 := entry_2025]> (<[2019 := entry_2019]> (∅ : gmap Z _))
  ∧ length (Statistics.save_to_csv
              (<[2019 := entry_2019]> (<[2025 := entry_2025]> ∅)))
    = 3%nat.
Proof.
  assert (Hcsv : Statistics.save_to_csv
                    (<[2019 := entry_2019]> (<[2025 := entry_2025]> ∅))
                  = Statistics.save_to_csv
                      (<[2025 := entry_2025]> (<[2019 := entry_2019]> ∅)))
    by (vm_compute; reflexivity).
  destruct (save_to_csv_injective _ _ Hcsv) as [Hsame Hlen].
  split; [exact Hsame | rewrite Hlen; vm_compute; reflexivity].
Defined.

Lemma save_weibo_csv_rows_witness :
  <[2019 := 2]> (<[2021 := 1]> ∅)
  = <[2021 := 1]> (<[2019 := 2]> (∅ : gmap Z Z)).
Proof.
  apply (proj2 save_weibo_csv_rows). vm_compute. reflexivity.
Defined.

Lemma only_weibo_save_weibo_csv_rows_witness :
  <[2019 := {| StatisticsOnlyWeibo.post_count := 2;
               StatisticsOnlyWeibo.reads_count := 6000 |}]>
    (<[2021 := {| StatisticsOnlyWeibo.post_count := 1;
                  StatisticsOnlyWeibo.reads_count := 1234 |}]> ∅)
  = <[2021 := {| StatisticsOnlyWeibo.post_count := 1;
                 StatisticsOnlyWeibo.reads_count := 1234 |}]>
      (<[2019 := {| StatisticsOnlyWeibo.post_count := 2;
                    StatisticsOnlyWeibo.reads_count := 6000 |}]>
         (∅ : gmap Z _)).
Proof.
  apply (proj2 only_weibo_save_weibo_csv_rows). vm_compute. reflexivity.
Defined.


Lemma weibo_variants_agree_witness :
  ∃ t', StatisticsOnlyWeibo.process_weibo_jsonl three_years_file = Ok t'
        ∧ StatisticsOnlyWeibo.post_count <$> t' = <[2019 := 2]> {[2021 := 1]}.
Proof.
  apply weibo_variants_agree. vm_compute. reflexivity.
Defined.

Lemma output_html_path_witness :
  output_html (utf8 "./data/WuKang_ip_location_chart.pdf")
  = utf8 "./data/WuKang_ip_location_chart" ++ utf8 ".html".
Proof.
  apply (proj2 (proj2 output_html_path)
           (utf8 "./data/WuKang_ip_location_chart")).
  vm_compute. reflexivity.
Defined.

End extras_concrete.
